(** * Weather lookup pipeline: a shallow embedding of [main.py]

    The program fetches the current weather of a few cities over HTTP,
    stores one record per city in a vector index and answers free-text
    prompts by a top-1 nearest-neighbour lookup.

    Python values are embedded as the inductive type [value]; a Python
    [float] is an IEEE binary64 number, the primitive [float] of Rocq.
    A Python exception is the [Raise] case of [result].  The services the
    program talks to are not part of it: the weather endpoint, the process
    environment and the text conversions of the Python runtime are the
    fields of a [World]; the embedding model and the vector index are the
    objects the functions receive as arguments. *)

From Stdlib Require Import ZArith Floats Ascii.
From stdpp Require Import gmap strings list pretty.

Set Warnings "-inexact-float".

Open Scope string_scope.
Open Scope list_scope.

(** ** Python values, exceptions and results *)

#[warnings="-register-all"]
Inductive value : Type :=
| PNone
| PBool (b : bool)
| PInt (z : Z)
| PFloat (f : float)
| PStr (s : string)
| PList (l : list value)
| PDict (d : list (string * value)).

(** A [dict] with string keys, in insertion order. *)
Abbreviation dict := (list (string * value)).

Inductive exn : Type :=
| AttributeError
| KeyError (key : string)
| IndexError
| TypeError
| JSONDecodeError
| RequestException (what : string).

Inductive result (A : Type) : Type :=
| Ok (a : A)
| Raise (e : exn).
Arguments Ok {A} a.
Arguments Raise {A} e.

#[global] Instance result_ret : MRet result := fun _ a => Ok a.
#[global] Instance result_bind : MBind result := fun _ _ f m =>
  match m with
  | Ok a => f a
  | Raise e => Raise e
  end.

(** ** Dictionaries *)

(** [d.get(key)], as an option. *)
Fixpoint dict_lookup (d : dict) (key : string) : option value :=
  match d with
  | [] => None
  | (k, v) :: rest => if String.eqb k key then Some v else dict_lookup rest key
  end.

(** [d[key] = v]: an existing key keeps its place, a new one goes last. *)
Fixpoint dict_set (d : dict) (key : string) (v : value) : dict :=
  match d with
  | [] => [(key, v)]
  | (k, v0) :: rest =>
      if String.eqb k key then (k, v) :: rest else (k, v0) :: dict_set rest key v
  end.

(** [list(d.keys())] *)
Definition keys {A : Type} (d : list (string * A)) : list string := map fst d.

(** [obj.get(key, fallback)]: only a dict has the method; on any other
    object the attribute lookup fails. *)
Definition py_get (obj : value) (key : string) (fallback : value) : result value :=
  match obj with
  | PDict d => Ok (default fallback (dict_lookup d key))
  | _ => Raise AttributeError
  end.

(** [obj[key]] for a string key: [KeyError] when a dict has no such key,
    [TypeError] on the other objects. *)
Definition py_getitem (obj : value) (key : string) : result value :=
  match obj with
  | PDict d =>
      match dict_lookup d key with
      | Some v => Ok v
      | None => Raise (KeyError key)
      end
  | _ => Raise TypeError
  end.

(** Truth value of an object, as [if obj:] tests it. *)
Definition truthy (obj : value) : bool :=
  match obj with
  | PNone => false
  | PBool b => b
  | PInt z => negb (z =? 0)%Z
  | PFloat f => negb (f =? 0)%float
  | PStr s => negb (String.eqb s "")
  | PList l => match l with [] => false | _ :: _ => true end
  | PDict d => match d with [] => false | _ :: _ => true end
  end.

(** [a[i]] on a sequence: [IndexError] out of range. *)
Definition seq_getitem {A : Type} (a : list A) (i : nat) : result A :=
  match a !! i with
  | Some x => Ok x
  | None => Raise IndexError
  end.

(** ** The world outside the program *)

Record Params : Type := {
  latitude : float;
  longitude : float;
  current_weather : bool
}.

(** What [requests.get] hands back: the status code and what
    [response.json()] gives, an exception when the body is not JSON. *)
Record Response : Type := {
  status_code : Z;
  json : result value
}.

(** What the program reads from outside.  [requests_get] is the weather
    service seen through [requests.get(url, params=params)]: the answer to
    each request, an exception for a transport failure; within one world
    the same request has the same answer.  [repr_float] and [repr_str] are
    the texts the Python runtime prints for a float and for a str. *)
Record World : Type := {
  environ : gmap string string;
  requests_get : option string → Params → result Response;
  repr_float : float → string;
  repr_str : string → string
}.

(** ** Text conversion *)

Fixpoint py_repr (w : World) (v : value) : string :=
  match v with
  | PNone => "None"
  | PBool true => "True"
  | PBool false => "False"
  | PInt z => pretty z
  | PFloat f => repr_float w f
  | PStr s => repr_str w s
  | PList l => "[" +:+ String.concat ", " (map (py_repr w) l) +:+ "]"
  | PDict d =>
      "{" +:+ String.concat ", "
                (map (fun kv => repr_str w (fst kv) +:+ ": " +:+ py_repr w (snd kv)) d)
          +:+ "}"
  end.

(** [str(v)], which is what a replacement field [{v}] of an f-string
    inserts. *)
Definition py_str (w : World) (v : value) : string :=
  match v with
  | PStr s => s
  | _ => py_repr w v
  end.

(** ** [get_current_weather] *)

Definition get_current_weather (w : World)
    (city_name : string) (latitude longitude : float) : result value :=
  let url := environ w !! "WEATHER_URL" in
  let params :=
    {| latitude := latitude; longitude := longitude; current_weather := true |} in
  response ← requests_get w url params;
  if (status_code response =? 200)%Z then
    body ← json response;
    data ← py_get body "current_weather" (PDict []);
    temperature ← py_get data "temperature" PNone;
    windspeed ← py_get data "windspeed" PNone;
    Ok (PDict [("temperature", temperature); ("wind_speed", windspeed)])
  else
    Ok PNone.

(** ** The embedding model

    [SentenceTransformer.encode] takes a list of texts and returns a
    two-dimensional array, one row per text; a row converted with
    [tolist()] is a list of floats. *)

Record SentenceTransformer : Type := {
  encode : list string → list (list float)
}.

Definition tolist (row : list float) : list float := row.

(** ** The vector index *)

(** One record of an upsert request: the dictionary with the keys ["id"],
    ["values"] and ["metadata"]. *)
Record Vector : Type := {
  vec_id : string;
  vec_values : list float;
  vec_metadata : dict
}.

(** Modelled from the spec: the index object of the vector store client, a
    remote service whose code is not in the repository.  It persists
    (id, vector, metadata) records keyed by id and ranks them by the
    similarity it was created with, [metric].  The model also keeps the
    upsert requests the index received, oldest first. *)
Record Index : Type := {
  metric : list float → list float → float;
  vectors : gmap string (list float * dict);
  upserts : list (list Vector)
}.

(** One match of a query response. *)
Record ScoredVector : Type := {
  match_id : string;
  match_score : float;
  match_metadata : value
}.

Record QueryResponse : Type := {
  matches : list ScoredVector
}.

Definition store_vector (m : gmap string (list float * dict)) (v : Vector)
    : gmap string (list float * dict) :=
  <[vec_id v := (vec_values v, vec_metadata v)]> m.

(** Modelled from the spec: [index.upsert(batch)] of the vector store
    client, an insert-or-update keyed by record id. *)
Definition upsert (index : Index) (batch : list Vector) : Index :=
  {| metric := metric index;
     vectors := foldl store_vector (vectors index) batch;
     upserts := upserts index ++ [batch] |}.

Definition score_record (index : Index) (vector : list float) (include_metadata : bool)
    (rec : string * (list float * dict)) : ScoredVector :=
  {| match_id := rec.1;
     match_score := metric index vector rec.2.1;
     match_metadata := if include_metadata then PDict rec.2.2 else PNone |}.

Fixpoint insert_by_score (m : ScoredVector) (l : list ScoredVector) : list ScoredVector :=
  match l with
  | [] => [m]
  | x :: rest =>
      if (match_score x <? match_score m)%float then m :: x :: rest
      else x :: insert_by_score m rest
  end.

Definition sort_by_score (l : list ScoredVector) : list ScoredVector :=
  foldr insert_by_score [] l.

(** Modelled from the spec: [index.query(vector=..., top_k=...,
    include_metadata=...)] of the vector store client, the [top_k] records
    most similar to [vector], by descending similarity, with their metadata
    when it is asked for. *)
Definition query (index : Index) (vector : list float) (top_k : nat)
    (include_metadata : bool) : QueryResponse :=
  {| matches :=
       take top_k
         (sort_by_score
            (map (score_record index vector include_metadata)
                 (map_to_list (vectors index)))) |}.

(** ** [fetch_and_store_weather_data] *)

(** The body of the [for] loop, from iteration [i] on, over the items that
    are left; [weather_data] and [index] are the two objects it updates.
    An exception leaves the index as it is at that point. *)
Fixpoint ingest_loop (w : World) (city_embeddings : list (list float)) (i : nat)
    (items : list (string * (float * float)))
    (weather_data : dict) (index : Index) : result dict * Index :=
  match items with
  | [] => (Ok weather_data, index)
  | (city, (lat, lon)) :: rest =>
      match get_current_weather w city lat lon with
      | Raise e => (Raise e, index)
      | Ok weather_info =>
          if truthy weather_info then
            let weather_data := dict_set weather_data city weather_info in
            match
              row ← seq_getitem city_embeddings i;
              temperature ← py_getitem weather_info "temperature";
              wind_speed ← py_getitem weather_info "wind_speed";
              Ok {| vec_id := city;
                    vec_values := tolist row;
                    vec_metadata := [("temperature", temperature);
                                     ("wind_speed", wind_speed)] |}
            with
            | Raise e => (Raise e, index)
            | Ok record =>
                ingest_loop w city_embeddings (S i) rest weather_data
                  (upsert index [record])
            end
          else
            ingest_loop w city_embeddings (S i) rest weather_data index
      end
  end.

Definition fetch_and_store_weather_data (w : World)
    (cities : list (string * (float * float)))
    (embedding_model : SentenceTransformer) (index : Index)
    : result dict * Index :=
  let weather_data := [] in
  let city_names := keys cities in
  let city_embeddings := encode embedding_model city_names in
  ingest_loop w city_embeddings 0 cities weather_data index.

(** ** [query_weather] *)

Definition not_found_message : string :=
  "Sorry, I couldn't find weather information for any city in your query.".

Definition low_confidence_message (city_name : string) : string :=
  "I found a possible match for '" +:+ city_name
    +:+ "', but I'm not very confident. Could you be more specific?".

Definition newline : string := String "010"%char "".

Definition weather_message (city_name temperature wind_speed : string) : string :=
  "Today's weather in " +:+ city_name +:+ ":" +:+ newline
    +:+ "- Temperature: " +:+ temperature +:+ "Â°C" +:+ newline
    +:+ "- Wind speed: " +:+ wind_speed +:+ " km/h".

Definition query_weather (w : World) (prompt : string)
    (embedding_model : SentenceTransformer) (index : Index) : result string :=
  let prompt_embedding := encode embedding_model [prompt] in
  row ← seq_getitem prompt_embedding 0;
  let query_results := query index (tolist row) 1 true in
  match matches query_results with
  | [] => Ok not_found_message
  | best_match :: _ =>
      let city_name := match_id best_match in
      let metadata := match_metadata best_match in
      let similarity_score := match_score best_match in
      if (similarity_score <? 0.3)%float then
        Ok (low_confidence_message city_name)
      else
        temperature ← py_get metadata "temperature" PNone;
        wind_speed ← py_get metadata "wind_speed" PNone;
        Ok (weather_message city_name (py_str w temperature) (py_str w wind_speed))
  end.

(** ** Vocabulary of the statements *)

(** The dictionary [{"temperature": t, "wind_speed": ws}]: the literal
    [get_current_weather] returns and the metadata literal of the upsert. *)
Definition snapshot (t ws : value) : dict :=
  [("temperature", t); ("wind_speed", ws)].

(** The one-record batch the loop sends for a city. *)
Definition city_record (city : string) (row : list float) (t ws : value) : Vector :=
  {| vec_id := city; vec_values := tolist row; vec_metadata := snapshot t ws |}.

(** What the weather service answers to the request [get_current_weather]
    sends for a pair of coordinates. *)
Definition weather_response (w : World) (lat lon : float) : result Response :=
  requests_get w (environ w !! "WEATHER_URL")
    {| latitude := lat; longitude := lon; current_weather := true |}.

(** [d.get(key)] with its default [None]. *)
Definition field (d : dict) (key : string) : value :=
  default PNone (dict_lookup d key).

(** The object [body.get("current_weather", {})] when it is a dictionary:
    the entry of that name, or the empty default when there is none. *)
Definition nested_current_weather (body : dict) : option dict :=
  match dict_lookup body "current_weather" with
  | None => Some []
  | Some (PDict data) => Some data
  | Some _ => None
  end.

(** [sub] occurs in [s]. *)
Definition contains (s sub : string) : Prop :=
  ∃ before after, s = before +:+ sub +:+ after.

(** The records of the index whose id is [name]. *)
Definition records_with_id (index : Index) (name : string)
    : list (string * (list float * dict)) :=
  filter (fun rec => rec.1 = name) (map_to_list (vectors index)).

(** The upsert requests an index received after the state [before]. *)
Definition new_upserts (before after : Index) : list (list Vector) :=
  drop (length (upserts before)) (upserts after).

(** [batch] is the request the loop sends for one of [items], a city with a
    successful fetch, with the row of [city_embeddings] at the city's
    position; [i] is the position of the first item. *)
Definition sent_for (w : World) (city_embeddings : list (list float)) (i : nat)
    (items : list (string * (float * float))) (batch : list Vector) : Prop :=
  ∃ j city lat lon t ws row,
    items !! j = Some (city, (lat, lon)) ∧
    get_current_weather w city lat lon = Ok (PDict (snapshot t ws)) ∧
    city_embeddings !! (i + j)%nat = Some row ∧
    batch = [city_record city row t ws].

(** The contract of the embedding provider: row [i] of a batch is the
    embedding of text [i], the row a call on that text alone returns. *)
Definition order_preserving (embedding_model : SentenceTransformer) : Prop :=
  ∀ (names : list string) (i : nat) (name : string),
    names !! i = Some name →
    encode embedding_model names !! i = encode embedding_model [name] !! 0%nat.

(** The ingestion workflow with one embedding call per city name instead of
    the batch call, the substitute the specification allows.  It differs
    from [ingest_loop] in the row it stores only. *)
Fixpoint ingest_loop_per_name (w : World) (embedding_model : SentenceTransformer)
    (items : list (string * (float * float)))
    (weather_data : dict) (index : Index) : result dict * Index :=
  match items with
  | [] => (Ok weather_data, index)
  | (city, (lat, lon)) :: rest =>
      match get_current_weather w city lat lon with
      | Raise e => (Raise e, index)
      | Ok weather_info =>
          if truthy weather_info then
            let weather_data := dict_set weather_data city weather_info in
            match
              row ← seq_getitem (encode embedding_model [city]) 0;
              temperature ← py_getitem weather_info "temperature";
              wind_speed ← py_getitem weather_info "wind_speed";
              Ok {| vec_id := city;
                    vec_values := tolist row;
                    vec_metadata := [("temperature", temperature);
                                     ("wind_speed", wind_speed)] |}
            with
            | Raise e => (Raise e, index)
            | Ok record =>
                ingest_loop_per_name w embedding_model rest weather_data
                  (upsert index [record])
            end
          else
            ingest_loop_per_name w embedding_model rest weather_data index
      end
  end.

Definition fetch_and_store_per_name (w : World)
    (cities : list (string * (float * float)))
    (embedding_model : SentenceTransformer) (index : Index)
    : result dict * Index :=
  ingest_loop_per_name w embedding_model cities [] index.

(** ** A stubbed world, for running the definitions *)

Definition stub_body (temperature windspeed : value) : value :=
  PDict [("current_weather",
          PDict [("temperature", temperature); ("windspeed", windspeed)])].

(** A weather service that answers south of latitude 41 with the given
    readings, fails with status 503 up to latitude 43, and north of it
    answers 200 with an empty JSON object. *)
Definition stub_world (temperature windspeed : value) : World :=
  {| environ := {["WEATHER_URL" := "http://weather.test/v1/forecast"]};
     requests_get := fun url params =>
       match url with
       | None => Raise (RequestException "MissingSchema")
       | Some _ =>
           if (latitude params <? 41)%float then
             Ok {| status_code := 200; json := Ok (stub_body temperature windspeed) |}
           else if (latitude params <? 43)%float then
             Ok {| status_code := 503; json := Raise JSONDecodeError |}
           else
             Ok {| status_code := 200; json := Ok (PDict []) |}
       end;
     repr_float := fun _ => "<float>";
     repr_str := fun s => "'" +:+ s +:+ "'" |}.

(** An embedding model with two-dimensional rows computed text by text. *)
Definition stub_row (text : string) : list float :=
  [1%float; PrimFloat.of_uint63 (Uint63.of_Z (Z.of_nat (String.length text)))].

Definition stub_model : SentenceTransformer :=
  {| encode := map stub_row |}.

(** An empty index whose similarity is the constant [score]. *)
Definition stub_index (score : float) : Index :=
  {| metric := fun _ _ => score; vectors := ∅; upserts := [] |}.

(** An index whose similarity to any query is the first component of the
    stored vector, after two upserts, the second replacing a record. *)
Definition ranked_index : Index :=
  upsert
    (upsert
       {| metric := fun _ stored => hd 0%float stored; vectors := ∅; upserts := [] |}
       [ {| vec_id := "Bilbao"; vec_values := [0.2%float]; vec_metadata := [] |};
         {| vec_id := "Madrid"; vec_values := [0.8%float]; vec_metadata := [] |} ])
    [ {| vec_id := "Bilbao"; vec_values := [0.25%float]; vec_metadata := [] |} ].

(** The city list of [main]. *)
Definition main_cities : list (string * (float * float)) :=
  [("Madrid", (40.42, -3.70)%float);
   ("Barcelona", (41.39, 2.16)%float);
   ("Bilbao", (43.26, -2.93)%float)].

(** The workflow run on that list in a stubbed world: Madrid is answered
    with 15 degrees and wind speed 10, Barcelona with status 503, Bilbao
    with an empty object. *)
Definition stub_run : result dict * Index :=
  fetch_and_store_weather_data (stub_world (PInt 15) (PInt 10))
    main_cities stub_model (stub_index 0.9).

Definition stub_weather_data : dict :=
  [("Madrid", PDict (snapshot (PInt 15) (PInt 10)));
   ("Bilbao", PDict (snapshot PNone PNone))].

(** The same list ingested again later, when Madrid is answered with 18
    degrees and wind speed 22. *)
Definition stub_rerun : result dict * Index :=
  fetch_and_store_weather_data (stub_world (PInt 18) (PInt 22))
    main_cities stub_model stub_run.2.

Definition stub_weather_data_later : dict :=
  [("Madrid", PDict (snapshot (PInt 18) (PInt 22)));
   ("Bilbao", PDict (snapshot PNone PNone))].

(** The end-to-end scenario: Madrid alone, ingested into an empty index. *)
Definition madrid_only : list (string * (float * float)) :=
  [("Madrid", (40.42, -3.70)%float)].

Definition madrid_run (score : float) : result dict * Index :=
  fetch_and_store_weather_data (stub_world (PInt 15) (PInt 10))
    madrid_only stub_model (stub_index score).

Definition madrid_match (score : float) : ScoredVector :=
  {| match_id := "Madrid";
     match_score := score;
     match_metadata := PDict (snapshot (PInt 15) (PInt 10)) |}.

(** A weather service that is down for Barcelona, north of latitude 41 and
    south of 43: the request raises.  South of it the service answers as
    it should; north of it, 200 with a body whose current-weather entry is
    [null]. *)
Definition broken_world : World :=
  {| environ := {["WEATHER_URL" := "http://weather.test/v1/forecast"]};
     requests_get := fun url params =>
       if (latitude params <? 41)%float then
         Ok {| status_code := 200; json := Ok (stub_body (PInt 15) (PInt 10)) |}
       else if (latitude params <? 43)%float then
         Raise (RequestException "ConnectionError")
       else
         Ok {| status_code := 200; json := Ok (PDict [("current_weather", PNone)]) |};
     repr_float := fun _ => "<float>";
     repr_str := fun s => "'" +:+ s +:+ "'" |}.

(** A model that returns an empty array, whatever it is given. *)
Definition mute_model : SentenceTransformer :=
  {| encode := fun _ => [] |}.

(** ** [run_test_queries] *)

(** [print(text)]: the texts written to the standard output so far, one
    per call, oldest first. *)
Definition print (text : string) (stdout : list string) : list string :=
  stdout ++ [text].

(** [s * n] *)
Fixpoint string_mul (s : string) (n : nat) : string :=
  match n with
  | O => ""
  | S n => s +:+ string_mul s n
  end.

Definition test_queries : list string :=
  ["What's the weather in Madrid?";
   "How's Barcelona today?";
   "Temperature in Bilbao";
   "Madrid weather";
   "What about Barcelona?"].

(** The [for] loop over the queries that are left.  An exception of
    [query_weather] ends it, after the line that announces the query. *)
Fixpoint query_loop (w : World) (queries : list string)
    (embedding_model : SentenceTransformer) (index : Index)
    (stdout : list string) : result unit * list string :=
  match queries with
  | [] => (Ok tt, stdout)
  | query :: rest =>
      let stdout := print ("Query: '" +:+ query +:+ "'") stdout in
      match query_weather w query embedding_model index with
      | Raise e => (Raise e, stdout)
      | Ok answer =>
          let stdout := print answer stdout in
          let stdout := print (string_mul "-" 50) stdout in
          query_loop w rest embedding_model index stdout
      end
  end.

Definition run_test_queries (w : World)
    (embedding_model : SentenceTransformer) (index : Index)
    (stdout : list string) : result unit * list string :=
  let stdout := print (newline +:+ "Running test queries:") stdout in
  let stdout := print (string_mul "=" 50) stdout in
  query_loop w test_queries embedding_model index stdout.

(** ** [initialize_components] and [main] *)

(** [ServerlessSpec(cloud=..., region=...)] *)
Record ServerlessSpec : Type := {
  cloud : string;
  region : string
}.

(** What [create_index] is given besides the name. *)
Record IndexDescription : Type := {
  dimension : Z;
  metric_name : string;
  spec : ServerlessSpec
}.

(** Modelled from the spec: the two libraries [initialize_components]
    builds its objects from, whose code is not in the repository.
    [load_model name] is [SentenceTransformer(name)], the model or the
    exception of a model that cannot be loaded.  [new_client key] is
    [Pinecone(api_key=key)], which raises when no client can be built with
    that key.  [refusal call] is the exception, if there is one, with which
    the service answers the call of that name on the client, for a reason
    of its own (the network, the credential).  [similarity] is the
    similarity the vector store computes for a metric name. *)
Record Host : Type := {
  load_model : string → result SentenceTransformer;
  new_client : option string → result unit;
  refusal : string → option exn;
  similarity : string → list float → list float → float
}.

(** What a run of the program changes: the indexes of the vector store
    account, by name, each with the description it was created with; the
    texts printed; the seconds slept. *)
Record Process : Type := {
  proc_indexes : gmap string (IndexDescription * Index);
  proc_stdout : list string;
  proc_slept : Z
}.

Definition proc_print (text : string) (p : Process) : Process :=
  {| proc_indexes := proc_indexes p;
     proc_stdout := print text (proc_stdout p);
     proc_slept := proc_slept p |}.

(** [time.sleep(seconds)] *)
Definition sleep (seconds : Z) (p : Process) : Process :=
  {| proc_indexes := proc_indexes p;
     proc_stdout := proc_stdout p;
     proc_slept := (proc_slept p + seconds)%Z |}.

(** Modelled from the spec: [pc.has_index(name)] of the vector store
    client. *)
Definition has_index (h : Host) (p : Process) (name : string) : result bool :=
  match refusal h "has_index" with
  | Some e => Raise e
  | None => Ok (bool_decide (is_Some (proc_indexes p !! name)))
  end.

(** Modelled from the spec: [pc.create_index(name=..., dimension=...,
    metric=..., spec=...)] of the vector store client.  A new index has no
    record; a name that is taken is refused. *)
Definition create_index (h : Host) (name : string) (description : IndexDescription)
    (p : Process) : result unit * Process :=
  match refusal h "create_index" with
  | Some e => (Raise e, p)
  | None =>
      match proc_indexes p !! name with
      | Some _ => (Raise (RequestException "ALREADY_EXISTS"), p)
      | None =>
          (Ok tt,
           {| proc_indexes :=
                <[name := (description,
                           {| metric := similarity h (metric_name description);
                              vectors := ∅;
                              upserts := [] |})]> (proc_indexes p);
              proc_stdout := proc_stdout p;
              proc_slept := proc_slept p |})
      end
  end.

(** Modelled from the spec: [pc.Index(name)] of the vector store client,
    the index of that name as it is now; a name that is not there is
    refused. *)
Definition open_index (h : Host) (p : Process) (name : string) : result Index :=
  match refusal h "Index" with
  | Some e => Raise e
  | None =>
      match proc_indexes p !! name with
      | Some (_, index) => Ok index
      | None => Raise (RequestException "NOT_FOUND")
      end
  end.

(** The index object is a handle on the remote index: what was upserted
    through it is in the account. *)
Definition write_index (name : string) (index : Index) (p : Process) : Process :=
  {| proc_indexes := alter (fun entry => (entry.1, index)) name (proc_indexes p);
     proc_stdout := proc_stdout p;
     proc_slept := proc_slept p |}.

Definition default_index_name : string := "city-weather-data".

Definition initialize_components (w : World) (h : Host) (index_name : string)
    (p : Process) : result (SentenceTransformer * Index) * Process :=
  match load_model h "all-MiniLM-L6-v2" with
  | Raise e => (Raise e, p)
  | Ok embedding_model =>
      match new_client h (environ w !! "PINECONE_API_KEY") with
      | Raise e => (Raise e, p)
      | Ok pc =>
          match has_index h p index_name with
          | Raise e => (Raise e, p)
          | Ok exists_already =>
              let created :=
                if exists_already then
                  (Ok tt,
                   proc_print ("Index '" +:+ index_name
                                 +:+ "' already exists. Using existing index.") p)
                else
                  let p :=
                    proc_print ("Index '" +:+ index_name
                                  +:+ "' does not exist. Creating a new index.") p in
                  match
                    create_index h index_name
                      {| dimension := 384;
                         metric_name := "cosine";
                         spec := {| cloud := "aws"; region := "us-east-1" |} |} p
                  with
                  | (Raise e, p) => (Raise e, p)
                  | (Ok _, p) => (Ok tt, sleep 30 p)
                  end in
              match created with
              | (Raise e, p) => (Raise e, p)
              | (Ok _, p) =>
                  match open_index h p index_name with
                  | Raise e => (Raise e, p)
                  | Ok index => (Ok (embedding_model, index), p)
                  end
              end
          end
      end
  end.

Definition main (w : World) (h : Host) (p : Process) : result unit * Process :=
  let cities := main_cities in
  match initialize_components w h default_index_name p with
  | (Raise e, p) => (Raise e, p)
  | (Ok (embedding_model, index), p) =>
      match fetch_and_store_weather_data w cities embedding_model index with
      | (outcome, index) =>
          let p := write_index default_index_name index p in
          match outcome with
          | Raise e => (Raise e, p)
          | Ok weather_data =>
              let p := proc_print (newline +:+ "Weather data collected:") p in
              let p := proc_print (py_str w (PDict weather_data)) p in
              match run_test_queries w embedding_model index (proc_stdout p) with
              | (outcome, stdout) =>
                  (outcome,
                   {| proc_indexes := proc_indexes p;
                      proc_stdout := stdout;
                      proc_slept := proc_slept p |})
              end
          end
      end
  end.

(** A world with a credential for the vector store in its environment. *)
Definition with_api_key (w : World) : World :=
  {| environ := <["PINECONE_API_KEY" := "pc-test-key"]> (environ w);
     requests_get := requests_get w;
     repr_float := repr_float w;
     repr_str := repr_str w |}.

(** A host whose model is the stub, whose client needs a key, whose
    service refuses no call and whose similarity is constant; and a
    process that starts with an empty account. *)
Definition stub_host : Host :=
  {| load_model := fun _ => Ok stub_model;
     new_client := fun key =>
       match key with
       | Some _ => Ok tt
       | None => Raise (RequestException "PineconeConfigurationError")
       end;
     refusal := fun _ => None;
     similarity := fun _ _ _ => 0.9%float |}.

Definition fresh_process : Process :=
  {| proc_indexes := ∅; proc_stdout := []; proc_slept := 0 |}.

(** An account that already has another index and, under the default
    name, an index with a record of an older run. *)
Definition seeded_process : Process :=
  {| proc_indexes :=
       {[ "another-index" :=
            ({| dimension := 8; metric_name := "dotproduct";
                spec := {| cloud := "gcp"; region := "europe-west4" |} |},
             stub_index 0.5);
          default_index_name :=
            ({| dimension := 384; metric_name := "cosine";
                spec := {| cloud := "aws"; region := "us-east-1" |} |},
             upsert (stub_index 0.9)
               [ {| vec_id := "Sevilla"; vec_values := [1%float];
                    vec_metadata := snapshot (PInt 30) (PInt 5) |} ]) ]};
     proc_stdout := [];
     proc_slept := 0 |}.

(** ** More vocabulary *)

(** What the loop keeps of an item: the city with what its fetch returned,
    when that is truthy. *)
Definition fetched (w : World) (item : string * (float * float))
    : option (string * value) :=
  match get_current_weather w item.1 item.2.1 item.2.2 with
  | Ok weather_info => if truthy weather_info then Some (item.1, weather_info) else None
  | Raise _ => None
  end.

(** The cities with a successful fetch, in the order of the mapping. *)
Definition successes (w : World) (cities : list (string * (float * float)))
    : list (string * value) :=
  omap (fetched w) cities.

(** The three texts one query adds to the output. *)
Definition query_block (query answer : string) : list string :=
  ["Query: '" +:+ query +:+ "'"; answer; string_mul "-" 50].

(* ================================================================= *)
(** * Properties *)

(** ** Dictionaries *)

Lemma dict_lookup_set_eq (d : dict) (key : string) (v : value) :
  dict_lookup (dict_set d key v) key = Some v.
Proof.
  induction d as [|[k v0] d IH]; simpl.
  - by rewrite String.eqb_refl.
  - destruct (String.eqb k key) eqn:E; simpl; rewrite E; [done | exact IH].
Qed.

Lemma dict_lookup_set_ne (d : dict) (key key' : string) (v : value) :
  key ≠ key' → dict_lookup (dict_set d key v) key' = dict_lookup d key'.
Proof.
  intros Hne. induction d as [|[k v0] d IH]; simpl.
  - by apply String.eqb_neq in Hne as ->.
  - destruct (String.eqb k key) eqn:E; simpl.
    + apply String.eqb_eq in E as ->.
      by apply String.eqb_neq in Hne as ->.
    + by rewrite IH.
Qed.

(** ** [get_current_weather] *)

Section Fetch.
Context (w : World) (city : string) (lat lon : float).

Lemma fetch_non_200 (response : Response) :
  weather_response w lat lon = Ok response →
  status_code response ≠ 200%Z →
  get_current_weather w city lat lon = Ok PNone.
Proof.
  unfold weather_response, get_current_weather. intros -> Hstatus. simpl.
  by apply Z.eqb_neq in Hstatus as ->.
Qed.

Lemma fetch_200 (response : Response) (body data : dict) :
  weather_response w lat lon = Ok response →
  status_code response = 200%Z →
  json response = Ok (PDict body) →
  nested_current_weather body = Some data →
  get_current_weather w city lat lon
  = Ok (PDict (snapshot (field data "temperature") (field data "windspeed"))).
Proof.
  unfold weather_response, get_current_weather, nested_current_weather.
  intros ->; simpl. intros -> ->; simpl. intros Hdata.
  destruct (dict_lookup body "current_weather") as [[]|]; simplify_eq/=; done.
Qed.

(** Whatever the service answers, a returned value is [None] or a
    two-field dictionary. *)
Lemma fetch_shape (info : value) :
  get_current_weather w city lat lon = Ok info →
  info = PNone ∨ ∃ t ws, info = PDict (snapshot t ws).
Proof.
  unfold get_current_weather.
  destruct (requests_get _ _ _) as [response|]; simpl; [|done].
  destruct (status_code response =? 200)%Z; [|intros [= <-]; by left].
  destruct (json response) as [body|]; simpl; [|done].
  destruct (py_get body _ _) as [data|]; simpl; [|done].
  destruct (py_get data "temperature" _) as [t|]; simpl; [|done].
  destruct (py_get data "windspeed" _) as [ws|]; simpl; [|done].
  intros [= <-]. right. by exists t, ws.
Qed.

Lemma fetch_truthy (info : value) :
  get_current_weather w city lat lon = Ok info →
  truthy info = true →
  ∃ t ws, info = PDict (snapshot t ws).
Proof. intros [->|?]%fetch_shape; [done | auto]. Qed.

Lemma fetch_falsy (info : value) :
  get_current_weather w city lat lon = Ok info →
  truthy info = false →
  info = PNone.
Proof. intros [->|(t & ws & ->)]%fetch_shape; [done | discriminate]. Qed.

(** [None] comes from a response with another status than 200, and from
    nothing else. *)
Lemma fetch_None_inv :
  get_current_weather w city lat lon = Ok PNone →
  ∃ response, weather_response w lat lon = Ok response ∧ status_code response ≠ 200%Z.
Proof.
  unfold weather_response, get_current_weather.
  destruct (requests_get _ _ _) as [response|]; simpl; [|done].
  destruct (Z.eqb_spec (status_code response) 200); [|by eauto].
  destruct (json response) as [body|]; simpl; [|done].
  destruct (py_get body _ _) as [data|]; simpl; [|done].
  destruct (py_get data "temperature" _) as [t|]; simpl; [|done].
  destruct (py_get data "windspeed" _) as [ws|]; simpl; done.
Qed.

(** A 200 response whose body is not an object, or whose
    ["current_weather"] entry is not one, makes the [get] call fail. *)
Lemma fetch_200_malformed (response : Response) (body : value) :
  weather_response w lat lon = Ok response →
  status_code response = 200%Z →
  json response = Ok body →
  (∀ d, body = PDict d → nested_current_weather d = None) →
  get_current_weather w city lat lon = Raise AttributeError.
Proof.
  unfold weather_response, get_current_weather, nested_current_weather.
  intros ->; simpl. intros -> ->; simpl. intros Hbody.
  destruct body as [| | | | | |d]; try done. simpl.
  specialize (Hbody d eq_refl).
  destruct (dict_lookup d "current_weather") as [[]|]; done.
Qed.

End Fetch.

(** The result is a function of what the service answers: two worlds that
    answer the request alike give the same result, whatever the names. *)
Lemma fetch_response_only (w w' : World) (city city' : string) (lat lon : float) :
  weather_response w lat lon = weather_response w' lat lon →
  get_current_weather w city lat lon = get_current_weather w' city' lat lon.
Proof. unfold weather_response, get_current_weather. by intros ->. Qed.

(** ** The ingestion loop *)

Lemma keys_cons {A : Type} (k : string) (a : A) (rest : list (string * A)) :
  keys ((k, a) :: rest) = k :: keys rest.
Proof. reflexivity. Qed.

Section Loop.
Context (w : World) (city_embeddings : list (list float)).

(** One iteration of a run that returns: the fetch returned, and either it
    gave [None] and nothing changed, or both objects were updated. *)
Lemma ingest_loop_cons_Ok i city lat lon rest wd index wd' index' :
  ingest_loop w city_embeddings i ((city, (lat, lon)) :: rest) wd index = (Ok wd', index') →
  ∃ info, get_current_weather w city lat lon = Ok info ∧
    ((info = PNone ∧ ingest_loop w city_embeddings (S i) rest wd index = (Ok wd', index')) ∨
     (∃ t ws row,
        info = PDict (snapshot t ws) ∧
        city_embeddings !! i = Some row ∧
        ingest_loop w city_embeddings (S i) rest (dict_set wd city info)
          (upsert index [city_record city row t ws]) = (Ok wd', index'))).
Proof.
  simpl. destruct (get_current_weather w city lat lon) as [info|] eqn:Hfetch; [|done].
  intros Hrun. exists info. split; [done|].
  destruct (truthy info) eqn:Htruthy.
  - apply fetch_truthy in Hfetch as (t & ws & ->); [|done].
    unfold seq_getitem in Hrun.
    destruct (city_embeddings !! i) as [row|]; simpl in Hrun; [|done].
    right. by exists t, ws, row.
  - apply fetch_falsy in Hfetch as ->; [|done]. by left.
Qed.

(** The loop leaves alone what it has no item for. *)
Lemma ingest_loop_frame items : ∀ i wd index wd' index' city,
  ingest_loop w city_embeddings i items wd index = (Ok wd', index') →
  city ∉ keys items →
  dict_lookup wd' city = dict_lookup wd city ∧
  vectors index' !! city = vectors index !! city.
Proof.
  induction items as [|[c [lat lon]] rest IH]; intros i wd index wd' index' city.
  - by intros [= <- <-].
  - intros (info & _ & [[_ Hrest]|(t & ws & row & -> & _ & Hrest)])%ingest_loop_cons_Ok
      Hnotin.
    all: rewrite keys_cons in Hnotin; apply not_elem_of_cons in Hnotin as [Hne Hnotin].
    + by apply (IH _ _ _ _ _ _ Hrest).
    + apply (IH _ _ _ _ _ city) in Hrest as [-> ->]; [|done].
      rewrite dict_lookup_set_ne by done. simpl.
      unfold store_vector. simpl. by rewrite lookup_insert_ne.
Qed.

(** A city with a successful fetch is in both objects when the loop
    returns: in the map with what the fetch returned, in the index with
    the row at its position and the two readings as metadata. *)
Lemma ingest_loop_success items : ∀ i wd index wd' index' j city lat lon info,
  ingest_loop w city_embeddings i items wd index = (Ok wd', index') →
  NoDup (keys items) →
  items !! j = Some (city, (lat, lon)) →
  get_current_weather w city lat lon = Ok info →
  truthy info = true →
  ∃ t ws row,
    info = PDict (snapshot t ws) ∧
    city_embeddings !! (i + j)%nat = Some row ∧
    dict_lookup wd' city = Some info ∧
    vectors index' !! city = Some (tolist row, snapshot t ws).
Proof.
  induction items as [|[c [la lo]] rest IH];
    intros i wd index wd' index' j city lat lon info Hrun Hnodup Hitem Hfetch Htruthy;
    [done|].
  rewrite keys_cons in Hnodup. apply NoDup_cons in Hnodup as [Hfresh Hnodup].
  apply ingest_loop_cons_Ok in Hrun as (info0 & Hfetch0 & Hrun).
  destruct j as [|j]; simpl in Hitem.
  - injection Hitem as -> -> ->. rewrite Hfetch in Hfetch0. injection Hfetch0 as <-.
    destruct Hrun as [[-> _]|(t & ws & row & -> & Hrow & Hrest)]; [done|].
    apply (ingest_loop_frame _ _ _ _ _ _ city) in Hrest as [Hwd Hindex]; [|done].
    exists t, ws, row. rewrite Nat.add_0_r, Hwd, Hindex, dict_lookup_set_eq.
    repeat split; try done.
    simpl. unfold store_vector. simpl. by rewrite lookup_insert_eq.
  - replace (i + S j)%nat with (S i + j)%nat by lia.
    destruct Hrun as [[_ Hrest]|(t & ws & row & _ & _ & Hrest)];
      by eapply IH.
Qed.

(** Every entry of the returned map was there at the start or is what the
    fetch of one of the items returned. *)
Lemma ingest_loop_origin items : ∀ i wd index wd' index' city info,
  ingest_loop w city_embeddings i items wd index = (Ok wd', index') →
  dict_lookup wd' city = Some info →
  dict_lookup wd city = Some info ∨
  ∃ lat lon, (city, (lat, lon)) ∈ items ∧
    get_current_weather w city lat lon = Ok info ∧ truthy info = true.
Proof.
  induction items as [|[c [la lo]] rest IH]; intros i wd index wd' index' city info.
  - intros [= <- <-] Hin. by left.
  - intros (info0 & Hfetch & [[_ Hrest]|(t & ws & row & -> & _ & Hrest)])%ingest_loop_cons_Ok
      Hin.
    + destruct (IH _ _ _ _ _ _ _ Hrest Hin) as [?|(lat & lon & ? & ?)]; [by left|].
      right. exists lat, lon. by rewrite elem_of_cons; auto.
    + destruct (IH _ _ _ _ _ _ _ Hrest Hin) as [Hset|(lat & lon & ? & ?)].
      * destruct (decide (c = city)) as [->|Hne].
        -- rewrite dict_lookup_set_eq in Hset. injection Hset as <-.
           right. exists la, lo. by rewrite elem_of_cons; auto.
        -- rewrite dict_lookup_set_ne in Hset by done. by left.
      * right. exists lat, lon. by rewrite elem_of_cons; auto.
Qed.
Lemma sent_for_later i item rest batch :
  sent_for w city_embeddings (S i) rest batch →
  sent_for w city_embeddings i (item :: rest) batch.
Proof.
  intros (j & city & lat & lon & t & ws & row & Hitem & Hfetch & Hrow & ->).
  exists (S j), city, lat, lon, t, ws, row.
  by replace (i + S j)%nat with (S i + j)%nat by lia.
Qed.

(** Whatever the outcome, the loop only adds upsert requests, one record
    each, and each is for an item whose fetch succeeded. *)
Lemma ingest_loop_upserts items : ∀ i wd index outcome index',
  ingest_loop w city_embeddings i items wd index = (outcome, index') →
  ∃ new, upserts index' = upserts index ++ new ∧
         Forall (sent_for w city_embeddings i items) new.
Proof.
  induction items as [|[c [la lo]] rest IH]; intros i wd index outcome index'.
  { intros [= <- <-]. exists []. by rewrite app_nil_r. }
  simpl. destruct (get_current_weather w c la lo) as [info|] eqn:Hfetch.
  2:{ intros [= <- <-]. exists []. by rewrite app_nil_r. }
  destruct (truthy info) eqn:Htruthy.
  - destruct (fetch_truthy _ _ _ _ _ Hfetch Htruthy) as (t & ws & ->).
    unfold seq_getitem. destruct (city_embeddings !! i) as [row|] eqn:Hrow; simpl.
    2:{ intros [= <- <-]. exists []. by rewrite app_nil_r. }
    intros (new & -> & Hnew)%IH. exists ([city_record c row t ws] :: new).
    split; [simpl; by rewrite <- app_assoc|].
    constructor.
    + exists 0%nat, c, la, lo, t, ws, row. by rewrite Nat.add_0_r.
    + eapply Forall_impl; [exact Hnew|]. intros batch. apply sent_for_later.
  - intros (new & -> & Hnew)%IH. exists new. split; [done|].
    eapply Forall_impl; [exact Hnew|]. intros batch. apply sent_for_later.
Qed.

(** When the loop returns, the request for a city with a successful fetch
    is among those it added. *)
Lemma ingest_loop_sent items : ∀ i wd index wd' index' j city lat lon t ws,
  ingest_loop w city_embeddings i items wd index = (Ok wd', index') →
  items !! j = Some (city, (lat, lon)) →
  get_current_weather w city lat lon = Ok (PDict (snapshot t ws)) →
  ∃ row new,
    city_embeddings !! (i + j)%nat = Some row ∧
    upserts index' = upserts index ++ new ∧
    [city_record city row t ws] ∈ new.
Proof.
  induction items as [|[c [la lo]] rest IH];
    intros i wd index wd' index' j city lat lon t ws Hrun Hitem Hfetch; [done|].
  apply ingest_loop_cons_Ok in Hrun as (info0 & Hfetch0 & Hrun).
  destruct j as [|j]; simpl in Hitem.
  - injection Hitem as -> -> ->. rewrite Hfetch in Hfetch0. injection Hfetch0 as <-.
    destruct Hrun as [[? _]|(t' & ws' & row & [= <- <-] & Hrow & Hrest)]; [done|].
    apply ingest_loop_upserts in Hrest as (new & -> & _).
    exists row, ([city_record city row t ws] :: new).
    rewrite Nat.add_0_r. split_and!; [done| |by left].
    simpl. by rewrite <- app_assoc.
  - replace (i + S j)%nat with (S i + j)%nat by lia.
    destruct Hrun as [[_ Hrest]|(t' & ws' & row' & _ & _ & Hrest)].
    + by eapply IH.
    + destruct (IH _ _ _ _ _ _ _ _ _ _ _ Hrest Hitem Hfetch)
        as (row & new & Hrow & -> & Hin).
      exists row, ([city_record c row' t' ws'] :: new).
      split_and!; [done| |by right].
      simpl. by rewrite <- app_assoc.
Qed.

(** The loop returns when every fetch returns and the array has a row for
    each city whose fetch succeeded. *)
Lemma ingest_loop_returns items : ∀ i wd index,
  (∀ j city lat lon, items !! j = Some (city, (lat, lon)) →
     ∃ info, get_current_weather w city lat lon = Ok info ∧
             (truthy info = true → is_Some (city_embeddings !! (i + j)%nat))) →
  ∃ wd' index', ingest_loop w city_embeddings i items wd index = (Ok wd', index').
Proof.
  induction items as [|[c [la lo]] rest IH]; intros i wd index Hitems; [by eexists _, _|].
  assert (∀ wd1 index1, ∃ wd' index',
    ingest_loop w city_embeddings (S i) rest wd1 index1 = (Ok wd', index')) as Hrest.
  { intros wd1 index1. apply IH. intros j city lat lon Hitem.
    replace (S i + j)%nat with (i + S j)%nat by lia. by apply Hitems. }
  destruct (Hitems 0%nat c la lo eq_refl) as (info & Hfetch & Hrow).
  simpl. rewrite Hfetch. destruct (truthy info) eqn:Htruthy; [|apply Hrest].
  apply fetch_truthy in Hfetch as (t & ws & ->); [|done].
  destruct Hrow as [row Hrow]; [done|]. rewrite Nat.add_0_r in Hrow.
  unfold seq_getitem. rewrite Hrow. simpl. apply Hrest.
Qed.

(** With rows that are the embeddings of the names one by one, the loop and
    its per-name variant do the same. *)
Lemma ingest_loop_per_name_eq (embedding_model : SentenceTransformer) items :
  ∀ i wd index,
  (∀ j city coords, items !! j = Some (city, coords) →
     city_embeddings !! (i + j)%nat = encode embedding_model [city] !! 0%nat) →
  ingest_loop w city_embeddings i items wd index
  = ingest_loop_per_name w embedding_model items wd index.
Proof.
  induction items as [|[c [la lo]] rest IH]; intros i wd index Hrows; [done|].
  assert (∀ wd1 index1,
    ingest_loop w city_embeddings (S i) rest wd1 index1
    = ingest_loop_per_name w embedding_model rest wd1 index1) as Hrest.
  { intros wd1 index1. apply IH. intros j city coords Hitem.
    replace (S i + j)%nat with (i + S j)%nat by lia. by apply (Hrows (S j) city coords). }
  pose proof (Hrows 0%nat c (la, lo) eq_refl) as Hrow. rewrite Nat.add_0_r in Hrow.
  simpl. destruct (get_current_weather w c la lo) as [info|]; [|done].
  destruct (truthy info); [|apply Hrest].
  unfold seq_getitem. rewrite Hrow.
  destruct (encode embedding_model [c] !! 0%nat) as [row|]; simpl; [|done].
  destruct (py_getitem info "temperature" ≫= _); [apply Hrest | done].
Qed.

(** The record of a city whose every fetch gave [None] is not touched. *)
Lemma ingest_loop_untouched items : ∀ i wd index wd' index' city,
  ingest_loop w city_embeddings i items wd index = (Ok wd', index') →
  (∀ lat lon, (city, (lat, lon)) ∈ items →
     get_current_weather w city lat lon = Ok PNone) →
  vectors index' !! city = vectors index !! city.
Proof.
  induction items as [|[c [la lo]] rest IH]; intros i wd index wd' index' city.
  { by intros [= <- <-]. }
  intros (info & Hfetch & Hrun)%ingest_loop_cons_Ok Hnone.
  assert (∀ lat lon, (city, (lat, lon)) ∈ rest →
    get_current_weather w city lat lon = Ok PNone) as Hrest
    by (intros lat lon ?; apply Hnone; by right).
  destruct Hrun as [[_ Hrun]|(t & ws & row & -> & _ & Hrun)]; [by eapply IH|].
  rewrite (IH _ _ _ _ _ _ Hrun Hrest). simpl. unfold store_vector. simpl.
  apply lookup_insert_ne. intros ->.
  rewrite (Hnone la lo) in Hfetch by left. done.
Qed.
End Loop.

(** ** The index *)

Lemma new_upserts_app (index index' : Index) (new : list (list Vector)) :
  upserts index' = upserts index ++ new → new_upserts index index' = new.
Proof. unfold new_upserts. intros ->. by rewrite drop_app_length. Qed.

Lemma insert_by_score_perm (m : ScoredVector) (l : list ScoredVector) :
  insert_by_score m l ≡ₚ m :: l.
Proof.
  induction l as [|x l IH]; simpl; [done|].
  destruct (match_score x <? match_score m)%float; [done|].
  rewrite IH. apply Permutation_swap.
Qed.

Lemma sort_by_score_perm (l : list ScoredVector) : sort_by_score l ≡ₚ l.
Proof.
  induction l as [|x l IH]; simpl; [done|].
  by rewrite insert_by_score_perm, IH.
Qed.

(** A match is the scored record of the index under its id; with
    [include_metadata] its metadata is the stored dictionary. *)
Lemma query_match (index : Index) (vector : list float) (top_k : nat)
    (include_metadata : bool) (m : ScoredVector) :
  m ∈ matches (query index vector top_k include_metadata) →
  ∃ values metadata,
    vectors index !! match_id m = Some (values, metadata) ∧
    m = score_record index vector include_metadata (match_id m, (values, metadata)).
Proof.
  unfold query. simpl. intros Hin.
  apply (subseteq_take top_k) in Hin. rewrite sort_by_score_perm in Hin.
  apply list_elem_of_fmap in Hin as ([id [values metadata]] & -> & Hin).
  apply elem_of_map_to_list in Hin. by exists values, metadata.
Qed.

Lemma query_empty (index : Index) (vector : list float) (top_k : nat)
    (include_metadata : bool) :
  vectors index = ∅ →
  matches (query index vector top_k include_metadata) = [].
Proof.
  unfold query. simpl. intros ->. rewrite map_to_list_empty. simpl. apply take_nil.
Qed.

(** The records under one id: at most one, the one [lookup] finds. *)
Lemma filter_key_NoDup {A : Type} (l : list (string * A)) (name : string) (a : A) :
  NoDup l.*1 → (name, a) ∈ l → filter (fun rec => rec.1 = name) l = [(name, a)].
Proof.
  induction l as [|[k b] l IH]; intros Hnodup Hin; [by apply elem_of_nil in Hin|].
  rewrite fmap_cons in Hnodup. apply NoDup_cons in Hnodup as [Hfresh Hnodup].
  simpl in Hfresh. apply elem_of_cons in Hin as [[= <- <-]|Hin].
  - rewrite filter_cons_True by done. f_equal.
    destruct (filter _ l) as [|[k b] l'] eqn:Hfilter; [done|].
    assert ((k, b) ∈ filter (fun rec : string * A => rec.1 = name) l) as Hkb
      by (rewrite Hfilter; left).
    apply list_elem_of_filter in Hkb as [Hk Hkb]. simpl in Hk. subst k.
    destruct Hfresh. by apply (list_elem_of_fmap_2 fst) in Hkb.
  - rewrite filter_cons_False; [by apply IH|].
    simpl. intros ->. destruct Hfresh. by apply (list_elem_of_fmap_2 fst) in Hin.
Qed.

Lemma records_with_id_lookup (index : Index) (name : string) (rec : list float * dict) :
  vectors index !! name = Some rec →
  records_with_id index name = [(name, rec)].
Proof.
  intros Hrec. apply filter_key_NoDup; [apply NoDup_fst_map_to_list|].
  by apply elem_of_map_to_list.
Qed.

(** ** The ingestion workflow *)

Section Ingestion.
Context (w : World) (cities : list (string * (float * float)))
  (embedding_model : SentenceTransformer) (index : Index).

(** The workflow returns when no fetch raises and the model gave a row for
    every name. *)
Lemma fetch_and_store_returns :
  (∀ city lat lon, (city, (lat, lon)) ∈ cities →
     ∃ info, get_current_weather w city lat lon = Ok info) →
  (length cities ≤ length (encode embedding_model (keys cities)))%nat →
  ∃ weather_data index',
    fetch_and_store_weather_data w cities embedding_model index
    = (Ok weather_data, index').
Proof.
  intros Hfetch Hrows. apply ingest_loop_returns. intros j city lat lon Hitem.
  destruct (Hfetch city lat lon) as [info Hinfo]; [by eapply list_elem_of_lookup_2|].
  exists info. split; [done|]. intros _. apply lookup_lt_is_Some. simpl.
  apply lookup_lt_Some in Hitem. lia.
Qed.

Lemma fetch_and_store_success weather_data index' city lat lon t ws :
  NoDup (keys cities) →
  fetch_and_store_weather_data w cities embedding_model index
  = (Ok weather_data, index') →
  (city, (lat, lon)) ∈ cities →
  get_current_weather w city lat lon = Ok (PDict (snapshot t ws)) →
  ∃ j row,
    keys cities !! j = Some city ∧
    encode embedding_model (keys cities) !! j = Some row ∧
    dict_lookup weather_data city = Some (PDict (snapshot t ws)) ∧
    vectors index' !! city = Some (tolist row, snapshot t ws) ∧
    [city_record city row t ws] ∈ new_upserts index index'.
Proof.
  intros Hnodup Hrun [j Hitem]%list_elem_of_lookup_1 Hfetch.
  destruct (ingest_loop_success _ _ _ _ _ _ _ _ _ _ _ _ _ Hrun Hnodup Hitem Hfetch eq_refl)
    as (t' & ws' & row & [= <- <-] & Hrow & Hwd & Hindex).
  destruct (ingest_loop_sent _ _ _ _ _ _ _ _ _ _ _ _ _ _ Hrun Hitem Hfetch)
    as (row' & new & Hrow' & Hnew & Hin).
  simpl in Hrow, Hrow'. rewrite Hrow in Hrow'. injection Hrow' as <-.
  exists j, row. rewrite (new_upserts_app _ _ _ Hnew).
  split_and!; try done.
  unfold keys. by rewrite list_lookup_fmap, Hitem.
Qed.

Lemma fetch_and_store_origin weather_data index' city info :
  fetch_and_store_weather_data w cities embedding_model index
  = (Ok weather_data, index') →
  dict_lookup weather_data city = Some info →
  ∃ lat lon, (city, (lat, lon)) ∈ cities ∧
    get_current_weather w city lat lon = Ok info ∧ truthy info = true.
Proof.
  intros Hrun Hin.
  by destruct (ingest_loop_origin _ _ _ _ _ _ _ _ _ _ Hrun Hin) as [?|?].
Qed.

(** Each request the workflow sends holds one record: the name of a city
    whose fetch succeeded, the row of the batch at the position of that
    name, and the two readings. *)
Lemma fetch_and_store_sent outcome index' batch :
  fetch_and_store_weather_data w cities embedding_model index = (outcome, index') →
  batch ∈ new_upserts index index' →
  ∃ j city lat lon t ws row,
    cities !! j = Some (city, (lat, lon)) ∧
    get_current_weather w city lat lon = Ok (PDict (snapshot t ws)) ∧
    encode embedding_model (keys cities) !! j = Some row ∧
    batch = [city_record city row t ws].
Proof.
  intros (new & Hnew & Hsent)%ingest_loop_upserts.
  rewrite (new_upserts_app _ _ _ Hnew). intros Hin.
  rewrite Forall_forall in Hsent. exact (Hsent batch Hin).
Qed.

(** A dictionary has one entry per key. *)
Lemma cities_functional city lat lon la lo :
  NoDup (keys cities) →
  (city, (lat, lon)) ∈ cities → (city, (la, lo)) ∈ cities → la = lat ∧ lo = lon.
Proof.
  intros Hnodup [j Hj]%list_elem_of_lookup_1 [j' Hj']%list_elem_of_lookup_1.
  assert (j' = j) as ->.
  { eapply NoDup_lookup; [exact Hnodup|..]; unfold keys;
      rewrite list_lookup_fmap; [by rewrite Hj'|by rewrite Hj]. }
  rewrite Hj in Hj'. by injection Hj' as <- <-.
Qed.

(** A city whose fetch gave [None] is in no request and in no entry. *)
Lemma fetch_and_store_skipped weather_data index' city lat lon :
  NoDup (keys cities) →
  fetch_and_store_weather_data w cities embedding_model index
  = (Ok weather_data, index') →
  (city, (lat, lon)) ∈ cities →
  get_current_weather w city lat lon = Ok PNone →
  dict_lookup weather_data city = None ∧
  vectors index' !! city = vectors index !! city ∧
  ∀ batch record,
    batch ∈ new_upserts index index' → record ∈ batch → vec_id record ≠ city.
Proof.
  intros Hnodup Hrun Hin Hfetch.
  assert (∀ la lo, (city, (la, lo)) ∈ cities → la = lat ∧ lo = lon) as Hsame
    by (intros la lo; by apply cities_functional).
  split_and!.
  - destruct (dict_lookup weather_data city) as [info|] eqn:Hwd; [|done].
    destruct (fetch_and_store_origin _ _ _ _ Hrun Hwd) as (la & lo & Hin' & Hinfo & Htruthy).
    destruct (Hsame _ _ Hin') as [-> ->]. rewrite Hfetch in Hinfo.
    by injection Hinfo as <-.
  - eapply ingest_loop_untouched; [exact Hrun|].
    intros la lo Hin'. by destruct (Hsame _ _ Hin') as [-> ->].
  - intros batch record Hbatch Hrecord.
    destruct (fetch_and_store_sent _ _ _ Hrun Hbatch)
      as (j & c & la & lo & t & ws & row & Hj & Hinfo & _ & ->).
    apply list_elem_of_singleton in Hrecord as ->. simpl. intros ->.
    destruct (Hsame la lo) as [-> ->]; [by eapply list_elem_of_lookup_2|].
    by rewrite Hfetch in Hinfo.
Qed.
End Ingestion.

(** The ranking on a small index: best score first, [top_k] results, and
    one record per id after a repeated upsert. *)
Example query_ranks_best_first :
  map (fun m => (match_id m, match_score m)) (matches (query ranked_index [] 2 false))
  = [("Madrid", 0.8%float); ("Bilbao", 0.25%float)] ∧
  map match_id (matches (query ranked_index [] 1 true)) = ["Madrid"].
Proof. split; reflexivity. Qed.

(** ** Strings and the answers of [query_weather] *)

Lemma string_app_assoc (a b c : string) : (a +:+ b) +:+ c = a +:+ (b +:+ c).
Proof.
  induction a as [|ch a IH]; [done|].
  change (String ch ((a +:+ b) +:+ c) = String ch (a +:+ (b +:+ c))).
  by rewrite IH.
Qed.

Lemma contains_intro (before sub after s : string) :
  s = before +:+ sub +:+ after → contains s sub.
Proof. intros ->. by exists before, after. Qed.

Lemma low_confidence_message_names (city_name : string) :
  contains (low_confidence_message city_name) city_name.
Proof. by eapply contains_intro. Qed.

Lemma weather_message_contains (city_name temperature wind_speed : string) :
  contains (weather_message city_name temperature wind_speed) city_name ∧
  contains (weather_message city_name temperature wind_speed) temperature ∧
  contains (weather_message city_name temperature wind_speed) wind_speed.
Proof.
  split_and!.
  - by eapply contains_intro.
  - apply (contains_intro
             ("Today's weather in " +:+ city_name +:+ ":" +:+ newline +:+ "- Temperature: ")
             _ ("Â°C" +:+ newline +:+ "- Wind speed: " +:+ wind_speed +:+ " km/h")).
    unfold weather_message. by rewrite !string_app_assoc.
  - apply (contains_intro
             ("Today's weather in " +:+ city_name +:+ ":" +:+ newline +:+ "- Temperature: "
                +:+ temperature +:+ "Â°C" +:+ newline +:+ "- Wind speed: ")
             _ " km/h").
    unfold weather_message. by rewrite !string_app_assoc.
Qed.

Lemma query_weather_eq (w : World) (prompt : string)
    (embedding_model : SentenceTransformer) (index : Index) (vector : list float) :
  encode embedding_model [prompt] !! 0%nat = Some vector →
  query_weather w prompt embedding_model index
  = match matches (query index (tolist vector) 1 true) with
    | [] => Ok not_found_message
    | best_match :: _ =>
        if (match_score best_match <? 0.3)%float then
          Ok (low_confidence_message (match_id best_match))
        else
          temperature ← py_get (match_metadata best_match) "temperature" PNone;
          wind_speed ← py_get (match_metadata best_match) "wind_speed" PNone;
          Ok (weather_message (match_id best_match)
                (py_str w temperature) (py_str w wind_speed))
    end.
Proof. unfold query_weather, seq_getitem. by intros ->. Qed.

(** The best match of a query with metadata is a record of the index. *)
Lemma query_best_match (index : Index) (vector : list float) (top_k : nat)
    (best : ScoredVector) (rest : list ScoredVector) :
  matches (query index vector top_k true) = best :: rest →
  ∃ values metadata,
    vectors index !! match_id best = Some (values, metadata) ∧
    match_metadata best = PDict metadata.
Proof.
  intros Hmatches.
  destruct (query_match index vector top_k true best) as (values & metadata & Hrec & Hbest).
  { rewrite Hmatches. by left. }
  exists values, metadata. split; [done|]. by rewrite Hbest.
Qed.

(** The answer when the similarity passes the gate. *)
Lemma query_weather_confident (w : World) (prompt : string)
    (embedding_model : SentenceTransformer) (index : Index) (vector : list float)
    (best : ScoredVector) (rest : list ScoredVector) (metadata : dict) :
  encode embedding_model [prompt] !! 0%nat = Some vector →
  matches (query index (tolist vector) 1 true) = best :: rest →
  match_metadata best = PDict metadata →
  (match_score best <? 0.3)%float = false →
  query_weather w prompt embedding_model index
  = Ok (weather_message (match_id best)
          (py_str w (field metadata "temperature"))
          (py_str w (field metadata "wind_speed"))).
Proof.
  intros Hvector Hmatches Hmetadata Hscore.
  by rewrite (query_weather_eq _ _ _ _ _ Hvector), Hmatches, Hscore, Hmetadata.
Qed.

Lemma query_weather_unsure (w : World) (prompt : string)
    (embedding_model : SentenceTransformer) (index : Index) (vector : list float)
    (best : ScoredVector) (rest : list ScoredVector) :
  encode embedding_model [prompt] !! 0%nat = Some vector →
  matches (query index (tolist vector) 1 true) = best :: rest →
  (match_score best <? 0.3)%float = true →
  query_weather w prompt embedding_model index
  = Ok (low_confidence_message (match_id best)).
Proof.
  intros Hvector Hmatches Hscore.
  by rewrite (query_weather_eq _ _ _ _ _ Hvector), Hmatches, Hscore.
Qed.

(** ** The stubbed runs *)

Lemma stub_run_returns : stub_run = (Ok stub_weather_data, stub_run.2).
Proof. vm_compute. reflexivity. Qed.

Lemma main_cities_NoDup : NoDup (keys main_cities).
Proof. by apply (bool_decide_unpack _). Qed.

Lemma stub_rerun_returns : stub_rerun = (Ok stub_weather_data_later, stub_rerun.2).
Proof. vm_compute. reflexivity. Qed.

Lemma madrid_run_returns (score : float) :
  madrid_run score
  = (Ok [("Madrid", PDict (snapshot (PInt 15) (PInt 10)))], (madrid_run score).2).
Proof. reflexivity. Qed.

Lemma madrid_query (score : float) :
  matches (query (madrid_run score).2 (tolist (stub_row "weather in madrid")) 1 true)
  = [madrid_match score].
Proof. reflexivity. Qed.

(** A model that embeds text by text keeps the order of its batch. *)
Lemma rowwise_order_preserving (embed : string → list float) :
  order_preserving {| encode := map embed |}.
Proof.
  intros names i name Hname. simpl.
  change (map embed names) with (embed <$> names).
  by rewrite list_lookup_fmap, Hname.
Qed.

(* ================================================================= *)
(** * The claims *)

(** C1: when the ingestion workflow returns, every city whose weather fetch
    succeeded is in the returned map, bound to the fetched temperature and
    wind speed, and the index then holds a record under the city's name
    whose metadata is that temperature and wind speed; the returned map has
    no other entry.  The key list has no duplicate, as in every Python
    dictionary. *)
Theorem ingest_records_successful_cities (w : World)
    (cities : list (string * (float * float)))
    (embedding_model : SentenceTransformer) (index : Index)
    (weather_data : dict) (index' : Index) :
  NoDup (keys cities) →
  fetch_and_store_weather_data w cities embedding_model index
  = (Ok weather_data, index') →
  (∀ city lat lon t ws,
     (city, (lat, lon)) ∈ cities →
     get_current_weather w city lat lon = Ok (PDict (snapshot t ws)) →
     dict_lookup weather_data city = Some (PDict (snapshot t ws)) ∧
     ∃ values, vectors index' !! city = Some (values, snapshot t ws) ∧
               records_with_id index' city = [(city, (values, snapshot t ws))]) ∧
  (∀ city info,
     dict_lookup weather_data city = Some info →
     ∃ lat lon t ws,
       (city, (lat, lon)) ∈ cities ∧
       info = PDict (snapshot t ws) ∧
       get_current_weather w city lat lon = Ok info).
Proof.
  intros Hnodup Hrun. split.
  - intros city lat lon t ws Hin Hfetch.
    destruct (fetch_and_store_success _ _ _ _ _ _ _ _ _ _ _ Hnodup Hrun Hin Hfetch)
      as (j & row & _ & _ & Hwd & Hindex & _).
    split; [done|]. exists (tolist row). split; [done|].
    by apply records_with_id_lookup.
  - intros city info Hwd.
    destruct (fetch_and_store_origin _ _ _ _ _ _ _ _ Hrun Hwd)
      as (lat & lon & Hin & Hfetch & Htruthy).
    destruct (fetch_truthy _ _ _ _ _ Hfetch Htruthy) as (t & ws & ->).
    by exists lat, lon, t, ws.
Qed.

Lemma ingest_records_successful_cities_witness :
  dict_lookup stub_weather_data "Madrid" = Some (PDict (snapshot (PInt 15) (PInt 10))) ∧
  ∃ values,
    vectors stub_run.2 !! "Madrid" = Some (values, snapshot (PInt 15) (PInt 10)) ∧
    records_with_id stub_run.2 "Madrid"
    = [("Madrid", (values, snapshot (PInt 15) (PInt 10)))].
Proof.
  refine (proj1 (ingest_records_successful_cities _ _ _ _ _ _
                   main_cities_NoDup stub_run_returns)
            "Madrid" 40.42%float (-3.70)%float (PInt 15) (PInt 10) _ _).
  - by left.
  - reflexivity.
Defined.

(** C2: a city whose weather fetch failed, the fetcher returning [None]
    for a response with another status than 200, is absent from the map
    the workflow returns, no upsert request for it is sent and its entry of
    the index is left as it was; and the failure raises no error: the
    workflow returns as soon as the fetches of the other cities return and
    the model gave a row for every name. *)
Theorem ingest_skips_failed_city (w : World)
    (cities : list (string * (float * float)))
    (embedding_model : SentenceTransformer) (index : Index)
    (city : string) (lat lon : float) :
  NoDup (keys cities) →
  (city, (lat, lon)) ∈ cities →
  get_current_weather w city lat lon = Ok PNone →
  (∃ response, weather_response w lat lon = Ok response ∧
               status_code response ≠ 200%Z) ∧
  (∀ weather_data index',
     fetch_and_store_weather_data w cities embedding_model index
     = (Ok weather_data, index') →
     dict_lookup weather_data city = None ∧
     vectors index' !! city = vectors index !! city ∧
     ∀ batch record,
       batch ∈ new_upserts index index' → record ∈ batch → vec_id record ≠ city) ∧
  ((∀ c la lo, (c, (la, lo)) ∈ cities → c ≠ city →
      ∃ info, get_current_weather w c la lo = Ok info) →
   (length cities ≤ length (encode embedding_model (keys cities)))%nat →
   ∃ weather_data index',
     fetch_and_store_weather_data w cities embedding_model index
     = (Ok weather_data, index')).
Proof.
  intros Hnodup Hin Hfetch. split_and!.
  - by eapply fetch_None_inv.
  - intros weather_data index' Hrun. by eapply fetch_and_store_skipped.
  - intros Hothers Hrows. apply fetch_and_store_returns; [|done].
    intros c la lo Hc. destruct (decide (c = city)) as [->|Hne]; [|by eauto].
    destruct (cities_functional _ _ _ _ _ _ Hnodup Hin Hc) as [-> ->]. by eauto.
Qed.

Lemma ingest_skips_failed_city_witness :
  get_current_weather (stub_world (PInt 15) (PInt 10)) "Barcelona" 41.39 2.16 = Ok PNone ∧
  dict_lookup stub_weather_data "Barcelona" = None ∧
  vectors stub_run.2 !! "Barcelona" = None ∧
  ∀ batch record,
    batch ∈ new_upserts (stub_index 0.9) stub_run.2 → record ∈ batch →
    vec_id record ≠ "Barcelona".
Proof.
  split; [reflexivity|].
  refine (proj1 (proj2 (ingest_skips_failed_city (stub_world (PInt 15) (PInt 10))
                          main_cities stub_model (stub_index 0.9)
                          "Barcelona" 41.39%float 2.16%float
                          main_cities_NoDup _ _))
            stub_weather_data stub_run.2 stub_run_returns).
  - right. by left.
  - reflexivity.
Defined.

(** C3: when the top-1 query returns a match, the answer depends on its
    similarity score alone: below 0.3 it is the clarification request
    naming the matched city; otherwise it is the weather text, which
    contains the matched city's name and the temperature and wind speed
    stored for that city.  A score of 0.29 gives the first, a score of
    0.31 the second. *)
Theorem query_weather_confidence_gate (w : World) (prompt : string)
    (embedding_model : SentenceTransformer) (index : Index) (vector : list float)
    (best : ScoredVector) (rest : list ScoredVector) :
  encode embedding_model [prompt] !! 0%nat = Some vector →
  matches (query index (tolist vector) 1 true) = best :: rest →
  ∃ values metadata,
    vectors index !! match_id best = Some (values, metadata) ∧
    let city_name := match_id best in
    let temperature := py_str w (field metadata "temperature") in
    let wind_speed := py_str w (field metadata "wind_speed") in
    let clarification :=
      "I found a possible match for '" +:+ city_name
        +:+ "', but I'm not very confident. Could you be more specific?" in
    let weather := weather_message city_name temperature wind_speed in
    ((match_score best <? 0.3)%float = true →
     query_weather w prompt embedding_model index = Ok clarification) ∧
    ((match_score best <? 0.3)%float = false →
     query_weather w prompt embedding_model index = Ok weather) ∧
    (match_score best = 0.29%float →
     query_weather w prompt embedding_model index = Ok clarification) ∧
    (match_score best = 0.31%float →
     query_weather w prompt embedding_model index = Ok weather) ∧
    contains clarification city_name ∧
    contains weather city_name ∧
    contains weather temperature ∧
    contains weather wind_speed.
Proof.
  intros Hvector Hmatches.
  destruct (query_best_match _ _ _ _ _ Hmatches) as (values & metadata & Hrec & Hmetadata).
  exists values, metadata. split; [done|]. simpl.
  pose proof (query_weather_unsure w _ _ _ _ _ _ Hvector Hmatches) as Hunsure.
  pose proof (query_weather_confident w _ _ _ _ _ _ _ Hvector Hmatches Hmetadata)
    as Hconfident.
  split_and!; try done.
  - intros Hscore. apply Hunsure. by rewrite Hscore.
  - intros Hscore. apply Hconfident. by rewrite Hscore.
  - apply low_confidence_message_names.
  - apply weather_message_contains.
  - apply weather_message_contains.
  - apply weather_message_contains.
Qed.

Lemma query_weather_confidence_gate_witness :
  query_weather (stub_world (PInt 15) (PInt 10)) "weather in madrid"
    stub_model (madrid_run 0.29).2
  = Ok "I found a possible match for 'Madrid', but I'm not very confident. Could you be more specific?" ∧
  query_weather (stub_world (PInt 15) (PInt 10)) "weather in madrid"
    stub_model (madrid_run 0.31).2
  = Ok (weather_message "Madrid" "15" "10").
Proof.
  split.
  - destruct (query_weather_confidence_gate (stub_world (PInt 15) (PInt 10))
                "weather in madrid" stub_model (madrid_run 0.29).2
                (stub_row "weather in madrid") (madrid_match 0.29) []
                eq_refl (madrid_query 0.29))
      as (values & metadata & _ & _ & _ & Hlow & _).
    exact (Hlow eq_refl).
  - destruct (query_weather_confidence_gate (stub_world (PInt 15) (PInt 10))
                "weather in madrid" stub_model (madrid_run 0.31).2
                (stub_row "weather in madrid") (madrid_match 0.31) []
                eq_refl (madrid_query 0.31))
      as (values & metadata & Hrec & _ & _ & _ & Hhigh & _).
    vm_compute in Hrec. injection Hrec as <- <-.
    exact (Hhigh eq_refl).
Defined.

(** C4: when the top-1 query finds no match, as it does on an empty index,
    [query_weather] returns the fixed not-found sentence, word for word,
    and raises nothing. *)
Theorem query_weather_not_found (w : World) (prompt : string)
    (embedding_model : SentenceTransformer) (index : Index) (vector : list float) :
  encode embedding_model [prompt] !! 0%nat = Some vector →
  (matches (query index (tolist vector) 1 true) = [] →
   query_weather w prompt embedding_model index
   = Ok "Sorry, I couldn't find weather information for any city in your query.") ∧
  (vectors index = ∅ →
   query_weather w prompt embedding_model index
   = Ok "Sorry, I couldn't find weather information for any city in your query.").
Proof.
  intros Hvector. rewrite (query_weather_eq _ _ _ _ _ Hvector). split.
  - by intros ->.
  - intros Hempty. by rewrite query_empty.
Qed.

Lemma query_weather_not_found_witness :
  query_weather (stub_world (PInt 15) (PInt 10)) "How's Barcelona today?"
    stub_model (stub_index 0.9)
  = Ok "Sorry, I couldn't find weather information for any city in your query.".
Proof.
  refine (proj2 (query_weather_not_found (stub_world (PInt 15) (PInt 10))
                   "How's Barcelona today?" stub_model (stub_index 0.9)
                   (stub_row "How's Barcelona today?") eq_refl) eq_refl).
Defined.

(** C5: [get_current_weather] returns [None] for every response whose
    status is not 200, without raising; for a 200 response whose body is a
    JSON object with a nested current-weather object (the entry
    ["current_weather"], or the empty default when the body has none) it
    returns the record of the fields ["temperature"] and ["windspeed"] of
    that object, [None] standing in for a missing field. *)
Theorem get_current_weather_by_status (w : World) (city : string) (lat lon : float)
    (response : Response) :
  weather_response w lat lon = Ok response →
  (status_code response ≠ 200%Z →
   get_current_weather w city lat lon = Ok PNone) ∧
  (status_code response = 200%Z →
   ∀ body data,
     json response = Ok (PDict body) →
     nested_current_weather body = Some data →
     get_current_weather w city lat lon
     = Ok (PDict [("temperature", field data "temperature");
                  ("wind_speed", field data "windspeed")])).
Proof.
  intros Hresponse. split.
  - intros Hstatus. by eapply fetch_non_200.
  - intros Hstatus body data Hbody Hdata. by eapply fetch_200.
Qed.

Lemma get_current_weather_by_status_witness :
  get_current_weather (stub_world (PFloat 15.5) (PInt 10)) "Madrid" 40.42 (-3.70)
  = Ok (PDict [("temperature", PFloat 15.5); ("wind_speed", PInt 10)]) ∧
  get_current_weather (stub_world (PFloat 15.5) (PInt 10)) "Barcelona" 41.39 2.16
  = Ok PNone.
Proof.
  split.
  - refine (proj2 (get_current_weather_by_status (stub_world (PFloat 15.5) (PInt 10))
                     "Madrid" 40.42%float (-3.70)%float _ eq_refl)
              eq_refl _ [("temperature", PFloat 15.5); ("windspeed", PInt 10)]
              eq_refl eq_refl).
  - refine (proj1 (get_current_weather_by_status (stub_world (PFloat 15.5) (PInt 10))
                     "Barcelona" 41.39%float 2.16%float _ eq_refl) _).
    done.
Defined.

(** C6: with an embedding provider that keeps the order of its batch, the
    vector of every upsert the workflow sends is the row of the batch at
    the position of the city's name, which is the embedding of that name
    alone; so is the vector stored for every ingested city, and the
    workflow does exactly what its variant with one embedding call per
    name does. *)
Theorem batch_embedding_is_per_name (w : World)
    (cities : list (string * (float * float)))
    (embedding_model : SentenceTransformer) (index : Index) :
  order_preserving embedding_model →
  fetch_and_store_weather_data w cities embedding_model index
  = fetch_and_store_per_name w cities embedding_model index ∧
  (∀ outcome index' batch record,
     fetch_and_store_weather_data w cities embedding_model index = (outcome, index') →
     batch ∈ new_upserts index index' →
     record ∈ batch →
     (∃ i, keys cities !! i = Some (vec_id record) ∧
           encode embedding_model (keys cities) !! i = Some (vec_values record)) ∧
     encode embedding_model [vec_id record] !! 0%nat = Some (vec_values record)) ∧
  (∀ weather_data index' city lat lon t ws,
     NoDup (keys cities) →
     fetch_and_store_weather_data w cities embedding_model index
     = (Ok weather_data, index') →
     (city, (lat, lon)) ∈ cities →
     get_current_weather w city lat lon = Ok (PDict (snapshot t ws)) →
     ∃ row,
       encode embedding_model [city] !! 0%nat = Some row ∧
       vectors index' !! city = Some (tolist row, snapshot t ws)).
Proof.
  intros Horder. split_and!.
  - apply ingest_loop_per_name_eq. intros j city coords Hitem. simpl.
    apply Horder. unfold keys. by rewrite list_lookup_fmap, Hitem.
  - intros outcome index' batch record Hrun Hbatch Hrecord.
    destruct (fetch_and_store_sent _ _ _ _ _ _ _ Hrun Hbatch)
      as (j & city & lat & lon & t & ws & row & Hitem & _ & Hrow & ->).
    apply list_elem_of_singleton in Hrecord as ->. simpl.
    assert (keys cities !! j = Some city) as Hname
      by (unfold keys; by rewrite list_lookup_fmap, Hitem).
    split; [by exists j|].
    by rewrite <- (Horder _ _ _ Hname).
  - intros weather_data index' city lat lon t ws Hnodup Hrun Hin Hfetch.
    destruct (fetch_and_store_success _ _ _ _ _ _ _ _ _ _ _ Hnodup Hrun Hin Hfetch)
      as (j & row & Hname & Hrow & _ & Hindex & _).
    exists row. split; [|done]. by rewrite <- (Horder _ _ _ Hname).
Qed.

Lemma batch_embedding_is_per_name_witness :
  order_preserving stub_model ∧
  stub_run = fetch_and_store_per_name (stub_world (PInt 15) (PInt 10))
               main_cities stub_model (stub_index 0.9) ∧
  ∃ row,
    encode stub_model ["Madrid"] !! 0%nat = Some row ∧
    vectors stub_run.2 !! "Madrid" = Some (tolist row, snapshot (PInt 15) (PInt 10)).
Proof.
  pose proof (rowwise_order_preserving stub_row) as Horder.
  destruct (batch_embedding_is_per_name (stub_world (PInt 15) (PInt 10))
              main_cities stub_model (stub_index 0.9) Horder)
    as (Hsame & _ & Hstored).
  split_and!; [exact Horder | exact Hsame |].
  refine (Hstored stub_weather_data stub_run.2 "Madrid" 40.42%float (-3.70)%float
            (PInt 15) (PInt 10) main_cities_NoDup stub_run_returns _ eq_refl).
  by left.
Defined.

(** C7: a city ingested twice has one record in the index, not two: after
    the first successful ingestion the records under its name are one
    record with the readings of that ingestion, and after the second they
    are one record again, with the readings of the second. *)
Theorem reingest_overwrites (w1 w2 : World)
    (cities1 cities2 : list (string * (float * float)))
    (model1 model2 : SentenceTransformer) (index index1 index2 : Index)
    (weather_data1 weather_data2 : dict)
    (city : string) (lat1 lon1 lat2 lon2 : float) (t1 ws1 t2 ws2 : value) :
  NoDup (keys cities1) →
  NoDup (keys cities2) →
  fetch_and_store_weather_data w1 cities1 model1 index = (Ok weather_data1, index1) →
  (city, (lat1, lon1)) ∈ cities1 →
  get_current_weather w1 city lat1 lon1 = Ok (PDict (snapshot t1 ws1)) →
  fetch_and_store_weather_data w2 cities2 model2 index1 = (Ok weather_data2, index2) →
  (city, (lat2, lon2)) ∈ cities2 →
  get_current_weather w2 city lat2 lon2 = Ok (PDict (snapshot t2 ws2)) →
  (∃ values1, records_with_id index1 city = [(city, (values1, snapshot t1 ws1))]) ∧
  (∃ values2, records_with_id index2 city = [(city, (values2, snapshot t2 ws2))]).
Proof.
  intros Hnodup1 Hnodup2 Hrun1 Hin1 Hfetch1 Hrun2 Hin2 Hfetch2.
  destruct (fetch_and_store_success _ _ _ _ _ _ _ _ _ _ _ Hnodup1 Hrun1 Hin1 Hfetch1)
    as (j1 & row1 & _ & _ & _ & Hindex1 & _).
  destruct (fetch_and_store_success _ _ _ _ _ _ _ _ _ _ _ Hnodup2 Hrun2 Hin2 Hfetch2)
    as (j2 & row2 & _ & _ & _ & Hindex2 & _).
  split.
  - exists (tolist row1). by apply records_with_id_lookup.
  - exists (tolist row2). by apply records_with_id_lookup.
Qed.

Lemma reingest_overwrites_witness :
  (∃ values1,
     records_with_id stub_run.2 "Madrid"
     = [("Madrid", (values1, snapshot (PInt 15) (PInt 10)))]) ∧
  (∃ values2,
     records_with_id stub_rerun.2 "Madrid"
     = [("Madrid", (values2, snapshot (PInt 18) (PInt 22)))]).
Proof.
  refine (reingest_overwrites (stub_world (PInt 15) (PInt 10))
            (stub_world (PInt 18) (PInt 22)) main_cities main_cities
            stub_model stub_model (stub_index 0.9) stub_run.2 stub_rerun.2
            stub_weather_data stub_weather_data_later
            "Madrid" 40.42%float (-3.70)%float 40.42%float (-3.70)%float
            (PInt 15) (PInt 10) (PInt 18) (PInt 22)
            main_cities_NoDup main_cities_NoDup stub_run_returns _ eq_refl
            stub_rerun_returns _ eq_refl); by left.
Defined.

(** C8: end to end.  Madrid alone is ingested, its fetch returning
    temperature 15 and wind speed 10; the prompt "weather in madrid" then
    has Madrid as top match with score 0.9.  The answer of [query_weather]
    is the weather text for Madrid, and it contains "Madrid", "15" and
    "10". *)
Theorem madrid_end_to_end (w : World)
    (embedding_model : SentenceTransformer) (index : Index)
    (weather_data : dict) (index' : Index) (vector : list float)
    (best : ScoredVector) (rest : list ScoredVector) :
  get_current_weather w "Madrid" 40.42 (-3.70)
  = Ok (PDict [("temperature", PInt 15); ("wind_speed", PInt 10)]) →
  fetch_and_store_weather_data w [("Madrid", (40.42, -3.70)%float)] embedding_model index
  = (Ok weather_data, index') →
  encode embedding_model ["weather in madrid"] !! 0%nat = Some vector →
  matches (query index' (tolist vector) 1 true) = best :: rest →
  match_id best = "Madrid" →
  match_score best = 0.9%float →
  ∃ answer,
    query_weather w "weather in madrid" embedding_model index' = Ok answer ∧
    answer = weather_message "Madrid" "15" "10" ∧
    contains answer "Madrid" ∧ contains answer "15" ∧ contains answer "10".
Proof.
  intros Hfetch Hrun Hvector Hmatches Hid Hscore.
  destruct (query_best_match _ _ _ _ _ Hmatches) as (values & metadata & Hrec & Hmetadata).
  assert (NoDup (keys [("Madrid", (40.42, -3.70)%float)])) as Hnodup
    by (by apply (bool_decide_unpack _)).
  destruct (fetch_and_store_success _ _ _ _ _ _ "Madrid" _ _ _ _ Hnodup Hrun
              ltac:(by left) Hfetch) as (j & row & _ & _ & _ & Hindex & _).
  rewrite Hid, Hindex in Hrec. injection Hrec as <- <-.
  exists (weather_message "Madrid" "15" "10"). split_and!.
  - rewrite (query_weather_confident w _ _ _ _ _ _ _ Hvector Hmatches Hmetadata).
    + by rewrite Hid.
    + by rewrite Hscore.
  - done.
  - apply weather_message_contains.
  - apply weather_message_contains.
  - apply weather_message_contains.
Qed.

Lemma madrid_end_to_end_witness :
  ∃ answer,
    query_weather (stub_world (PInt 15) (PInt 10)) "weather in madrid"
      stub_model (madrid_run 0.9).2 = Ok answer ∧
    answer = weather_message "Madrid" "15" "10" ∧
    contains answer "Madrid" ∧ contains answer "15" ∧ contains answer "10".
Proof.
  exact (madrid_end_to_end (stub_world (PInt 15) (PInt 10)) stub_model
           (stub_index 0.9) _ (madrid_run 0.9).2 (stub_row "weather in madrid")
           (madrid_match 0.9) [] eq_refl (madrid_run_returns 0.9) eq_refl
           (madrid_query 0.9) eq_refl eq_refl).
Defined.

(** C9: the result of [get_current_weather] does not depend on the city
    name it is given: the argument is accepted and never read, so two calls
    that differ in it alone return the same. *)
Theorem get_current_weather_ignores_city_name (w : World)
    (city_name city_name' : string) (lat lon : float) :
  get_current_weather w city_name lat lon = get_current_weather w city_name' lat lon.
Proof. reflexivity. Qed.

(** C10: a 200 response whose body has no current-weather object, or one
    without the two fields, counts as a successful fetch:
    [get_current_weather] returns the record with both fields [None], which
    is truthy, so the workflow puts the city in its result map and sends
    an upsert for it whose metadata holds [None] twice.  The workflow does
    return with that entry and that request as soon as the fetches of the
    other cities return and the model gave a row for every name. *)
Theorem empty_body_is_ingested (w : World) (city : string) (lat lon : float)
    (response : Response) (body : dict) :
  weather_response w lat lon = Ok response →
  status_code response = 200%Z →
  json response = Ok (PDict body) →
  (dict_lookup body "current_weather" = None ∨
   ∃ data, dict_lookup body "current_weather" = Some (PDict data) ∧
           dict_lookup data "temperature" = None ∧
           dict_lookup data "windspeed" = None) →
  get_current_weather w city lat lon = Ok (PDict (snapshot PNone PNone)) ∧
  truthy (PDict (snapshot PNone PNone)) = true ∧
  (∀ cities embedding_model index weather_data index',
     NoDup (keys cities) →
     (city, (lat, lon)) ∈ cities →
     fetch_and_store_weather_data w cities embedding_model index
     = (Ok weather_data, index') →
     dict_lookup weather_data city = Some (PDict (snapshot PNone PNone)) ∧
     ∃ row,
       vectors index' !! city = Some (tolist row, snapshot PNone PNone) ∧
       [{| vec_id := city; vec_values := tolist row;
           vec_metadata := [("temperature", PNone); ("wind_speed", PNone)] |}]
       ∈ new_upserts index index') ∧
  (∀ cities embedding_model index,
     NoDup (keys cities) →
     (city, (lat, lon)) ∈ cities →
     (∀ c la lo, (c, (la, lo)) ∈ cities → c ≠ city →
        ∃ info, get_current_weather w c la lo = Ok info) →
     (length cities ≤ length (encode embedding_model (keys cities)))%nat →
     ∃ weather_data index' row,
       fetch_and_store_weather_data w cities embedding_model index
       = (Ok weather_data, index') ∧
       dict_lookup weather_data city = Some (PDict (snapshot PNone PNone)) ∧
       vectors index' !! city = Some (tolist row, snapshot PNone PNone) ∧
       [{| vec_id := city; vec_values := tolist row;
           vec_metadata := [("temperature", PNone); ("wind_speed", PNone)] |}]
       ∈ new_upserts index index').
Proof.
  intros Hresponse Hstatus Hbody Hlacks.
  assert (get_current_weather w city lat lon = Ok (PDict (snapshot PNone PNone)))
    as Hfetch.
  { destruct Hlacks as [Hnone|(data & Hdata & Ht & Hws)].
    - rewrite (fetch_200 w city lat lon response body []); try done.
      unfold nested_current_weather. by rewrite Hnone.
    - rewrite (fetch_200 w city lat lon response body data); try done.
      + unfold field. by rewrite Ht, Hws.
      + unfold nested_current_weather. by rewrite Hdata. }
  split_and!; [done..| |].
  - intros cities embedding_model index weather_data index' Hnodup Hin Hrun.
    destruct (fetch_and_store_success _ _ _ _ _ _ _ _ _ _ _ Hnodup Hrun Hin Hfetch)
      as (j & row & _ & _ & Hwd & Hindex & Hsent).
    split; [done|]. by exists row.
  - intros cities embedding_model index Hnodup Hin Hothers Hrows.
    destruct (fetch_and_store_returns w cities embedding_model index)
      as (weather_data & index' & Hrun); [|done|].
    { intros c la lo Hc. destruct (decide (c = city)) as [->|Hne]; [|by eauto].
      destruct (cities_functional _ _ _ _ _ _ Hnodup Hin Hc) as [-> ->]. by eauto. }
    destruct (fetch_and_store_success _ _ _ _ _ _ _ _ _ _ _ Hnodup Hrun Hin Hfetch)
      as (j & row & _ & _ & Hwd & Hindex & Hsent).
    by exists weather_data, index', row.
Qed.

Lemma empty_body_is_ingested_witness :
  get_current_weather (stub_world (PInt 15) (PInt 10)) "Bilbao" 43.26 (-2.93)
  = Ok (PDict (snapshot PNone PNone)) ∧
  ∃ weather_data index' row,
    fetch_and_store_weather_data (stub_world (PInt 15) (PInt 10)) main_cities
      stub_model (stub_index 0.9) = (Ok weather_data, index') ∧
    dict_lookup weather_data "Bilbao" = Some (PDict (snapshot PNone PNone)) ∧
    vectors index' !! "Bilbao" = Some (tolist row, snapshot PNone PNone) ∧
    [{| vec_id := "Bilbao"; vec_values := tolist row;
        vec_metadata := [("temperature", PNone); ("wind_speed", PNone)] |}]
    ∈ new_upserts (stub_index 0.9) index'.
Proof.
  destruct (empty_body_is_ingested (stub_world (PInt 15) (PInt 10))
              "Bilbao" 43.26%float (-2.93)%float _ [] eq_refl eq_refl eq_refl
              (or_introl eq_refl)) as (Hfetch & _ & _ & Hruns).
  split; [exact Hfetch|].
  apply (Hruns main_cities stub_model (stub_index 0.9) main_cities_NoDup).
  - right. right. by left.
  - intros c la lo Hin Hne.
    apply elem_of_cons in Hin as [[= -> -> ->]|Hin]; [by eexists|].
    apply elem_of_cons in Hin as [[= -> -> ->]|Hin]; [by eexists|].
    apply list_elem_of_singleton in Hin as [= -> -> ->]. done.
  - simpl. lia.
Defined.

(* ================================================================= *)
(** * Further properties *)

(** ** The loop, request by request *)

Lemma elem_of_concat {A : Type} (x : A) (ls : list (list A)) :
  x ∈ concat ls → ∃ l, x ∈ l ∧ l ∈ ls.
Proof.
  induction ls as [|l ls IH]; simpl; [by intros ?%elem_of_nil|].
  rewrite elem_of_app. intros [Hin|(l' & Hin & Hl')%IH].
  - exists l. split; [done|by left].
  - exists l'. split; [done|by right].
Qed.

Lemma foldl_store_vector_lookup (batch : list Vector) :
  ∀ (m : gmap string (list float * dict)) (name : string),
  name ∉ map vec_id batch →
  foldl store_vector m batch !! name = m !! name.
Proof.
  induction batch as [|v batch IH]; intros m name Hnotin; [done|].
  simpl in *. apply not_elem_of_cons in Hnotin as [Hne Hnotin].
  rewrite IH by done. unfold store_vector. by rewrite lookup_insert_ne.
Qed.

Lemma foldl_store_vector_is_Some (batch : list Vector) :
  ∀ (m : gmap string (list float * dict)) (name : string),
  is_Some (m !! name) → is_Some (foldl store_vector m batch !! name).
Proof.
  induction batch as [|v batch IH]; intros m name Hsome; [done|].
  simpl. apply IH. unfold store_vector.
  destruct (decide (vec_id v = name)) as [<-|Hne].
  - rewrite lookup_insert_eq. by eexists.
  - by rewrite lookup_insert_ne.
Qed.

(** Storing a list of records a second time changes nothing. *)
Lemma foldl_store_vector_twice (batch : list Vector) :
  ∀ m : gmap string (list float * dict),
  foldl store_vector (foldl store_vector m batch) batch = foldl store_vector m batch.
Proof.
  assert (∀ (l : list Vector) (m m' : gmap string (list float * dict)) (name : string),
    (name ∉ map vec_id l → m !! name = m' !! name) →
    foldl store_vector m l !! name = foldl store_vector m' l !! name) as Hagree.
  { induction l as [|v l IH]; intros m m' name Hm; [by apply Hm, not_elem_of_nil|].
    simpl. apply IH. intros Hnotin. unfold store_vector.
    destruct (decide (vec_id v = name)) as [<-|Hne].
    - by rewrite !lookup_insert_eq.
    - rewrite !lookup_insert_ne by done. apply Hm.
      simpl. by apply not_elem_of_cons. }
  intros m. apply map_eq. intros name. apply Hagree.
  intros Hnotin. by apply foldl_store_vector_lookup.
Qed.

Section Requests.
Context (w : World) (city_embeddings : list (list float)).

(** The loop does not read the index: from any two indexes it has the same
    outcome and sends the same requests, and the records it leaves are
    those it found with the records of its requests stored over them. *)
Lemma ingest_loop_any_index items : ∀ i wd indexA indexB outcome indexA',
  ingest_loop w city_embeddings i items wd indexA = (outcome, indexA') →
  ∃ indexB' new,
    ingest_loop w city_embeddings i items wd indexB = (outcome, indexB') ∧
    upserts indexA' = upserts indexA ++ new ∧
    upserts indexB' = upserts indexB ++ new ∧
    vectors indexA' = foldl store_vector (vectors indexA) (concat new) ∧
    vectors indexB' = foldl store_vector (vectors indexB) (concat new) ∧
    metric indexA' = metric indexA ∧
    metric indexB' = metric indexB.
Proof.
  induction items as [|[c [la lo]] rest IH]; intros i wd indexA indexB outcome indexA'.
  { intros [= <- <-]. exists indexB, []. by rewrite !app_nil_r. }
  simpl. destruct (get_current_weather w c la lo) as [info|].
  2:{ intros [= <- <-]. exists indexB, []. by rewrite !app_nil_r. }
  destruct (truthy info); [|apply IH].
  destruct (seq_getitem city_embeddings i ≫= _) as [record|].
  2:{ intros [= <- <-]. exists indexB, []. by rewrite !app_nil_r. }
  intros Hrun.
  destruct (IH _ _ _ (upsert indexB [record]) _ _ Hrun)
    as (indexB' & new & HrunB & HupA & HupB & HvecA & HvecB & HmetA & HmetB).
  exists indexB', ([record] :: new). simpl in *.
  rewrite <- !app_assoc in HupA, HupB. by split_and!.
Qed.
(** Whatever its outcome, the loop only adds to the index. *)
Lemma ingest_loop_only_adds items i wd index outcome index' :
  ingest_loop w city_embeddings i items wd index = (outcome, index') →
  metric index' = metric index ∧
  (∀ name, is_Some (vectors index !! name) → is_Some (vectors index' !! name)) ∧
  (∀ name, name ∉ keys items → vectors index' !! name = vectors index !! name).
Proof.
  intros Hrun.
  destruct (ingest_loop_any_index _ _ _ _ index _ _ Hrun)
    as (indexB & new & _ & Hnew & _ & Hvectors & _ & Hmetric & _).
  destruct (ingest_loop_upserts _ _ _ _ _ _ _ _ Hrun) as (new' & Hnew' & Hsent).
  rewrite Hnew in Hnew'. apply app_inv_head in Hnew' as <-.
  split_and!; [done|..].
  - intros name Hsome. rewrite Hvectors. by apply foldl_store_vector_is_Some.
  - intros name Hfresh. rewrite Hvectors. apply foldl_store_vector_lookup.
    intros [record [-> Hrecord]]%list_elem_of_fmap.
    apply elem_of_concat in Hrecord as (batch & Hrecord & Hbatch).
    rewrite Forall_forall in Hsent.
    destruct (Hsent batch Hbatch) as (j & city & lat & lon & t & ws & row & Hj & _ & _ & ->).
    apply list_elem_of_singleton in Hrecord as ->. simpl in Hfresh.
    apply Hfresh. unfold keys. apply list_elem_of_lookup_2 with j.
    by rewrite list_lookup_fmap, Hj.
Qed.

(** The loop run again from the index it left has the same outcome and
    leaves the same records. *)
Lemma ingest_loop_again items i wd index outcome index1 :
  ingest_loop w city_embeddings i items wd index = (outcome, index1) →
  ∃ index2,
    ingest_loop w city_embeddings i items wd index1 = (outcome, index2) ∧
    vectors index2 = vectors index1 ∧
    metric index2 = metric index1.
Proof.
  intros Hrun.
  destruct (ingest_loop_any_index _ _ _ _ index1 _ _ Hrun)
    as (index2 & new & Hrun2 & _ & _ & Hvectors1 & Hvectors2 & _ & Hmetric).
  exists index2. split_and!; [done| |done].
  by rewrite Hvectors2, Hvectors1, foldl_store_vector_twice.
Qed.
End Requests.

(** ** The entries of the returned map *)

Lemma dict_set_fresh (d : dict) (key : string) (v : value) :
  key ∉ keys d → dict_set d key v = d ++ [(key, v)].
Proof.
  induction d as [|[k v0] d IH]; intros Hfresh; [done|].
  rewrite keys_cons in Hfresh. apply not_elem_of_cons in Hfresh as [Hne Hfresh].
  simpl. assert (String.eqb k key = false) as -> by (apply String.eqb_neq; congruence).
  by rewrite IH.
Qed.

Lemma foldl_dict_set_fresh (entries : list (string * value)) :
  ∀ d : dict,
  NoDup (keys d ++ keys entries) →
  foldl (fun d kv => dict_set d kv.1 kv.2) d entries = d ++ entries.
Proof.
  induction entries as [|[k v] entries IH]; intros d Hnodup; [by rewrite app_nil_r|].
  rewrite keys_cons in Hnodup. simpl.
  assert (k ∉ keys d) as Hfresh.
  { apply NoDup_app in Hnodup as (_ & Hdisjoint & _).
    intros Hin. apply (Hdisjoint k Hin). by left. }
  rewrite dict_set_fresh by done. rewrite IH.
  - by rewrite <- app_assoc.
  - unfold keys. rewrite fmap_app. simpl. rewrite <- app_assoc. exact Hnodup.
Qed.

Section Entries.
Context (w : World).

Lemma fetched_Some (city : string) (lat lon : float) (info : value) :
  get_current_weather w city lat lon = Ok info →
  truthy info = true →
  fetched w (city, (lat, lon)) = Some (city, info).
Proof. unfold fetched. simpl. by intros -> ->. Qed.

Lemma fetched_None (city : string) (lat lon : float) :
  get_current_weather w city lat lon = Ok PNone →
  fetched w (city, (lat, lon)) = None.
Proof. unfold fetched. simpl. by intros ->. Qed.

Lemma successes_cons (item : string * (float * float))
    (rest : list (string * (float * float))) :
  successes w (item :: rest)
  = match fetched w item with
    | Some kv => kv :: successes w rest
    | None => successes w rest
    end.
Proof. reflexivity. Qed.

Lemma fetched_key (item : string * (float * float)) (kv : string * value) :
  fetched w item = Some kv → kv.1 = item.1.
Proof.
  unfold fetched. destruct (get_current_weather _ _ _ _) as [info|]; [|done].
  destruct (truthy info); [|done]. by intros [= <-].
Qed.

Lemma successes_keys (cities : list (string * (float * float))) (city : string) :
  city ∈ keys (successes w cities) → city ∈ keys cities.
Proof.
  induction cities as [|[c coords] cities IH]; [done|].
  rewrite successes_cons, keys_cons.
  destruct (fetched w (c, coords)) as [[k v]|] eqn:Hfetched.
  - apply fetched_key in Hfetched. simpl in Hfetched. subst k.
    rewrite keys_cons, !elem_of_cons. intros [->|?]; auto.
  - rewrite elem_of_cons. auto.
Qed.

Lemma successes_NoDup (cities : list (string * (float * float))) :
  NoDup (keys cities) → NoDup (keys (successes w cities)).
Proof.
  induction cities as [|[c coords] cities IH]; [done|].
  rewrite keys_cons. intros [Hfresh Hnodup]%NoDup_cons.
  rewrite successes_cons.
  destruct (fetched w (c, coords)) as [[k v]|] eqn:Hfetched; [|auto].
  apply fetched_key in Hfetched. simpl in Hfetched. subst k.
  rewrite keys_cons. apply NoDup_cons. split; [|auto].
  intros Hin. by apply Hfresh, successes_keys.
Qed.

Context (city_embeddings : list (list float)).

(** When the loop returns, the map holds its entries of before with those
    of the successful cities set one after the other, and the loop has
    sent one request of one record for each of them, in that order. *)
Lemma ingest_loop_exact items : ∀ i wd index wd' index',
  ingest_loop w city_embeddings i items wd index = (Ok wd', index') →
  wd' = foldl (fun d kv => dict_set d kv.1 kv.2) wd (successes w items) ∧
  ∃ new,
    upserts index' = upserts index ++ new ∧
    map (map vec_id) new = map (fun kv => [kv.1]) (successes w items).
Proof.
  induction items as [|[c [la lo]] rest IH]; intros i wd index wd' index'.
  { intros [= <- <-]. split; [done|]. exists []. by rewrite app_nil_r. }
  intros (info & Hfetch & Hrun)%ingest_loop_cons_Ok. rewrite successes_cons.
  destruct Hrun as [[-> Hrun]|(t & ws & row & -> & _ & Hrun)].
  - rewrite (fetched_None _ _ _ Hfetch). by apply IH in Hrun.
  - rewrite (fetched_Some _ _ _ _ Hfetch eq_refl). simpl.
    apply IH in Hrun as [-> (new & -> & Hids)]. split; [done|].
    exists ([city_record c row t ws] :: new). split.
    + simpl. by rewrite <- app_assoc.
    + simpl. by rewrite Hids.
Qed.
End Entries.

(** ** The loop in two parts *)

Section Parts.
Context (w : World) (city_embeddings : list (list float)).

(** The loop over a list in two parts is the loop over the first part,
    then, unless that raised, the loop over the second from where the
    first ended. *)
Lemma ingest_loop_app before : ∀ after i wd index,
  ingest_loop w city_embeddings i (before ++ after) wd index
  = match ingest_loop w city_embeddings i before wd index with
    | (Ok wd1, index1) =>
        ingest_loop w city_embeddings (i + length before) after wd1 index1
    | (Raise e, index1) => (Raise e, index1)
    end.
Proof.
  induction before as [|[c [la lo]] before IH]; intros after i wd index.
  { cbn [app ingest_loop length]. by rewrite Nat.add_0_r. }
  cbn [app ingest_loop length]. rewrite Nat.add_succ_r.
  destruct (get_current_weather w c la lo) as [info|]; [|done].
  destruct (truthy info); [|apply (IH after (S i))].
  destruct (seq_getitem city_embeddings i ≫= _) as [record|];
    [apply (IH after (S i))|done].
Qed.
End Parts.

(** ** The ingestion workflow, beyond the claims *)

(** X1: when the workflow returns, the map it returns holds exactly the
    cities whose fetch succeeded, each with what the fetch returned, in the
    order of the input mapping; and the workflow has sent one upsert
    request of one record for each of these cities, in the same order. *)
Theorem ingest_keeps_input_order (w : World)
    (cities : list (string * (float * float)))
    (embedding_model : SentenceTransformer) (index : Index)
    (weather_data : dict) (index' : Index) :
  NoDup (keys cities) →
  fetch_and_store_weather_data w cities embedding_model index
  = (Ok weather_data, index') →
  weather_data = successes w cities ∧
  map (map vec_id) (new_upserts index index') = map (fun kv => [kv.1]) (successes w cities).
Proof.
  intros Hnodup [-> (new & Hnew & Hids)]%ingest_loop_exact. split.
  - apply (foldl_dict_set_fresh _ []). simpl. by apply successes_NoDup.
  - by rewrite (new_upserts_app _ _ _ Hnew).
Qed.

Lemma ingest_keeps_input_order_witness :
  stub_weather_data = successes (stub_world (PInt 15) (PInt 10)) main_cities ∧
  map (map vec_id) (new_upserts (stub_index 0.9) stub_run.2) = [["Madrid"]; ["Bilbao"]].
Proof.
  exact (ingest_keeps_input_order (stub_world (PInt 15) (PInt 10)) main_cities
           stub_model (stub_index 0.9) stub_weather_data stub_run.2
           main_cities_NoDup stub_run_returns).
Defined.

(** X2: whatever its outcome, the workflow only adds to the index: every id
    stored before is still stored, the record of an id that is not a key
    of the input mapping is the same as before, and the similarity of the
    index is not changed. *)
Theorem ingest_never_deletes (w : World)
    (cities : list (string * (float * float)))
    (embedding_model : SentenceTransformer) (index : Index)
    (outcome : result dict) (index' : Index) :
  fetch_and_store_weather_data w cities embedding_model index = (outcome, index') →
  metric index' = metric index ∧
  (∀ name, is_Some (vectors index !! name) → is_Some (vectors index' !! name)) ∧
  (∀ name, name ∉ keys cities → vectors index' !! name = vectors index !! name).
Proof.
  unfold fetch_and_store_weather_data. cbv zeta. intros Hrun.
  by apply (ingest_loop_only_adds _ _ _ _ _ _ _ _ Hrun).
Qed.

Lemma ingest_never_deletes_witness :
  is_Some (vectors stub_rerun.2 !! "Bilbao") ∧
  vectors stub_rerun.2 !! "Sevilla" = vectors stub_run.2 !! "Sevilla".
Proof.
  destruct (ingest_never_deletes (stub_world (PInt 18) (PInt 22)) main_cities
              stub_model stub_run.2 stub_rerun.1 stub_rerun.2 eq_refl)
    as (_ & Hkept & Hother).
  split.
  - apply Hkept. vm_compute. by eexists.
  - apply Hother. apply (bool_decide_unpack _). reflexivity.
Defined.

(** X3: the workflow does not read the index.  From any two indexes it has
    the same outcome, the returned map or the exception, and sends the same
    upsert requests. *)
Theorem ingest_ignores_index_contents (w : World)
    (cities : list (string * (float * float)))
    (embedding_model : SentenceTransformer) (indexA indexB : Index) :
  (fetch_and_store_weather_data w cities embedding_model indexA).1
  = (fetch_and_store_weather_data w cities embedding_model indexB).1 ∧
  new_upserts indexA (fetch_and_store_weather_data w cities embedding_model indexA).2
  = new_upserts indexB (fetch_and_store_weather_data w cities embedding_model indexB).2.
Proof.
  destruct (fetch_and_store_weather_data w cities embedding_model indexA)
    as [outcome indexA'] eqn:HrunA.
  destruct (ingest_loop_any_index _ _ _ _ _ _ indexB _ _ HrunA)
    as (indexB' & new & HrunB & HnewA & HnewB & _).
  unfold fetch_and_store_weather_data. rewrite HrunB. simpl.
  by rewrite (new_upserts_app _ _ _ HnewA), (new_upserts_app _ _ _ HnewB).
Qed.

(** X4: ingesting the same mapping again, in a world that answers as
    before, changes no record: the second run returns the same map and
    leaves the records and the similarity of the index as the first run
    left them. *)
Theorem reingest_is_idempotent (w : World)
    (cities : list (string * (float * float)))
    (embedding_model : SentenceTransformer) (index : Index)
    (weather_data : dict) (index1 : Index) :
  fetch_and_store_weather_data w cities embedding_model index
  = (Ok weather_data, index1) →
  ∃ index2,
    fetch_and_store_weather_data w cities embedding_model index1
    = (Ok weather_data, index2) ∧
    vectors index2 = vectors index1 ∧
    metric index2 = metric index1.
Proof.
  unfold fetch_and_store_weather_data. cbv zeta. intros Hrun.
  by apply (ingest_loop_again _ _ _ _ _ _ _ _ Hrun).
Qed.

Lemma reingest_is_idempotent_witness :
  ∃ index2,
    fetch_and_store_weather_data (stub_world (PInt 15) (PInt 10)) main_cities
      stub_model stub_run.2 = (Ok stub_weather_data, index2) ∧
    vectors index2 = vectors stub_run.2 ∧
    metric index2 = metric stub_run.2.
Proof.
  exact (reingest_is_idempotent (stub_world (PInt 15) (PInt 10)) main_cities
           stub_model (stub_index 0.9) stub_weather_data stub_run.2 stub_run_returns).
Defined.

(** X5: an exception raised by the fetch of a city ends the workflow at
    once and propagates.  When the fetches of the cities before it returned
    (and the model gave them rows), the workflow raises that exception and
    the upsert requests it has sent are those of the successful cities
    before, in order: the index stays partly populated, and no later city
    is upserted. *)
Theorem ingest_stops_at_first_exception (w : World)
    (before after : list (string * (float * float)))
    (city : string) (lat lon : float)
    (embedding_model : SentenceTransformer) (index : Index) (e : exn) :
  (∀ c la lo, (c, (la, lo)) ∈ before →
     ∃ info, get_current_weather w c la lo = Ok info) →
  (length before
   ≤ length (encode embedding_model (keys (before ++ (city, (lat, lon)) :: after))))%nat →
  get_current_weather w city lat lon = Raise e →
  ∃ index',
    fetch_and_store_weather_data w (before ++ (city, (lat, lon)) :: after)
      embedding_model index = (Raise e, index') ∧
    map (map vec_id) (new_upserts index index')
    = map (fun kv => [kv.1]) (successes w before).
Proof.
  intros Hbefore Hrows Hraise. unfold fetch_and_store_weather_data.
  set (rows := encode embedding_model (keys (before ++ (city, (lat, lon)) :: after))) in *.
  cbv zeta.
  destruct (ingest_loop_returns w rows before 0 [] index) as (wd1 & index1 & Hrun1).
  { intros j c la lo Hj. destruct (Hbefore c la lo) as [info Hinfo].
    { by eapply list_elem_of_lookup_2. }
    exists info. split; [done|]. intros _. apply lookup_lt_is_Some.
    apply lookup_lt_Some in Hj. simpl. lia. }
  exists index1. rewrite ingest_loop_app, Hrun1. simpl. rewrite Hraise.
  split; [done|].
  apply ingest_loop_exact in Hrun1 as [_ (new & Hnew & Hids)].
  by rewrite (new_upserts_app _ _ _ Hnew).
Qed.

Lemma ingest_stops_at_first_exception_witness :
  ∃ index',
    fetch_and_store_weather_data broken_world main_cities stub_model (stub_index 0.9)
    = (Raise (RequestException "ConnectionError"), index') ∧
    map (map vec_id) (new_upserts (stub_index 0.9) index') = [["Madrid"]].
Proof.
  refine (ingest_stops_at_first_exception broken_world
            [("Madrid", (40.42, -3.70)%float)] [("Bilbao", (43.26, -2.93)%float)]
            "Barcelona" 41.39%float 2.16%float stub_model (stub_index 0.9)
            (RequestException "ConnectionError") _ _ eq_refl).
  - intros c la lo [= -> -> ->]%list_elem_of_singleton. by eexists.
  - simpl. lia.
Defined.

(** X6: the two subscripts of the loop cannot fail.  What
    [get_current_weather] returns is [None], which the test of the loop
    skips, or a dictionary that is truthy and has exactly the keys
    ["temperature"] and ["wind_speed"]: then both subscripts return, and
    the metadata the loop builds from them is that dictionary again. *)
Theorem fetched_record_is_subscriptable (w : World) (city : string) (lat lon : float)
    (weather_info : value) :
  get_current_weather w city lat lon = Ok weather_info →
  (weather_info = PNone ∧ truthy weather_info = false) ∨
  (truthy weather_info = true ∧
   ∃ temperature wind_speed,
     py_getitem weather_info "temperature" = Ok temperature ∧
     py_getitem weather_info "wind_speed" = Ok wind_speed ∧
     weather_info = PDict [("temperature", temperature); ("wind_speed", wind_speed)]).
Proof.
  intros [->|(t & ws & ->)]%fetch_shape; [by left|].
  right. split; [done|]. by exists t, ws.
Qed.

Lemma fetched_record_is_subscriptable_witness :
  (PDict [("temperature", PInt 15); ("wind_speed", PInt 10)] = PNone ∧
   truthy (PDict [("temperature", PInt 15); ("wind_speed", PInt 10)]) = false) ∨
  (truthy (PDict [("temperature", PInt 15); ("wind_speed", PInt 10)]) = true ∧
   ∃ temperature wind_speed,
     py_getitem (PDict [("temperature", PInt 15); ("wind_speed", PInt 10)]) "temperature"
     = Ok temperature ∧
     py_getitem (PDict [("temperature", PInt 15); ("wind_speed", PInt 10)]) "wind_speed"
     = Ok wind_speed ∧
     PDict [("temperature", PInt 15); ("wind_speed", PInt 10)]
     = PDict [("temperature", temperature); ("wind_speed", wind_speed)]).
Proof.
  exact (fetched_record_is_subscriptable (stub_world (PInt 15) (PInt 10)) "Madrid"
           40.42%float (-3.70)%float _ eq_refl).
Defined.

(** ** [get_current_weather], beyond the claims *)

(** X7: [get_current_weather] raises in three cases and in no other: the
    request itself raises (a transport failure), the body of a 200
    response is not JSON, or that body is not an object whose
    current-weather entry is absent or an object, which gives
    [AttributeError].  A response with another status never raises. *)
Theorem get_current_weather_raises_iff (w : World) (city : string) (lat lon : float)
    (e : exn) :
  get_current_weather w city lat lon = Raise e ↔
  weather_response w lat lon = Raise e ∨
  ∃ response,
    weather_response w lat lon = Ok response ∧
    status_code response = 200%Z ∧
    (json response = Raise e ∨
     ∃ body, json response = Ok body ∧ e = AttributeError ∧
             ∀ d, body = PDict d → nested_current_weather d = None).
Proof.
  unfold weather_response, get_current_weather, nested_current_weather.
  destruct (requests_get _ _ _) as [response|e0]; simpl.
  2:{ split; [intros [= ->]; by left|]. by intros [[= ->]|(response & ? & _)]. }
  destruct (Z.eqb_spec (status_code response) 200) as [Hstatus|Hstatus].
  2:{ split; [done|]. by intros [?|(r & [= <-] & ? & _)]. }
  destruct (json response) as [body|e0] eqn:Hjson; simpl.
  2:{ split.
      - intros [= ->]. right. exists response. rewrite Hjson. auto.
      - intros [?|(r & [= <-] & _ & [Hj|(body & Hj & _)])]; [done|..];
          rewrite Hjson in Hj; congruence. }
  split.
  - intros Hraise. right. exists response. split_and!; [done..|]. right.
    exists body. rewrite Hjson.
    destruct body as [| | | | | |d]; simpl in Hraise;
      try (injection Hraise as <-; split_and!; [done..|]; by intros d [=]).
    destruct (dict_lookup d "current_weather") as [[| | | | | |data]|] eqn:Hcw;
      simpl in Hraise; try done;
      injection Hraise as <-; (split_and!; [done..|]);
      intros d' [= <-]; by rewrite Hcw.
  - intros [?|(r & [= <-] & _ & [Hj|(b & Hj & -> & Hbody)])]; [done|..];
      rewrite Hjson in Hj; [done|]. injection Hj as <-.
    destruct body as [| | | | | |d]; try done. simpl.
    specialize (Hbody d eq_refl).
    destruct (dict_lookup d "current_weather") as [[]|]; done.
Qed.

Lemma get_current_weather_raises_iff_witness :
  get_current_weather broken_world "Bilbao" 43.26 (-2.93) = Raise AttributeError.
Proof.
  apply (proj2 (get_current_weather_raises_iff broken_world "Bilbao"
                  43.26%float (-2.93)%float AttributeError)).
  right. eexists. split_and!; [reflexivity..|]. right.
  eexists. split_and!; [reflexivity..|]. by intros d [= <-].
Defined.

(** ** [query_weather], beyond the claims *)

(** X8: what was ingested is what is answered.  After a run of the
    workflow that returned, a prompt whose best match is a city ingested in
    that run, with a score that is not below 0.3, is answered with the
    weather text made of the city's name and the temperature and wind
    speed its fetch returned, each as [str] prints it. *)
Theorem query_returns_ingested_readings (w : World)
    (cities : list (string * (float * float)))
    (embedding_model : SentenceTransformer) (index : Index)
    (weather_data : dict) (index' : Index)
    (city : string) (lat lon : float) (t ws : value)
    (prompt : string) (vector : list float)
    (best : ScoredVector) (rest : list ScoredVector) :
  NoDup (keys cities) →
  fetch_and_store_weather_data w cities embedding_model index
  = (Ok weather_data, index') →
  (city, (lat, lon)) ∈ cities →
  get_current_weather w city lat lon = Ok (PDict (snapshot t ws)) →
  encode embedding_model [prompt] !! 0%nat = Some vector →
  matches (query index' (tolist vector) 1 true) = best :: rest →
  match_id best = city →
  (match_score best <? 0.3)%float = false →
  query_weather w prompt embedding_model index'
  = Ok (weather_message city (py_str w t) (py_str w ws)).
Proof.
  intros Hnodup Hrun Hin Hfetch Hvector Hmatches Hid Hscore.
  destruct (query_best_match _ _ _ _ _ Hmatches) as (values & metadata & Hrec & Hmetadata).
  destruct (fetch_and_store_success _ _ _ _ _ _ _ _ _ _ _ Hnodup Hrun Hin Hfetch)
    as (j & row & _ & _ & _ & Hindex & _).
  rewrite Hid, Hindex in Hrec. injection Hrec as <- <-.
  rewrite (query_weather_confident w _ _ _ _ _ _ _ Hvector Hmatches Hmetadata Hscore).
  by rewrite Hid.
Qed.

Lemma query_returns_ingested_readings_witness :
  query_weather (stub_world (PInt 15) (PInt 10)) "Madrid weather" stub_model
    (madrid_run 0.5).2
  = Ok (weather_message "Madrid" "15" "10").
Proof.
  exact (query_returns_ingested_readings (stub_world (PInt 15) (PInt 10))
           madrid_only stub_model (stub_index 0.5) _ (madrid_run 0.5).2
           "Madrid" 40.42%float (-3.70)%float (PInt 15) (PInt 10)
           "Madrid weather" (stub_row "Madrid weather") (madrid_match 0.5) []
           ltac:(by apply (bool_decide_unpack _)) (madrid_run_returns 0.5)
           ltac:(by left) eq_refl eq_refl eq_refl eq_refl eq_refl).
Defined.

(** X9: a city whose 200 response had no current-weather entry is stored
    with two [None] readings, and a prompt that matches it with a score
    that is not below 0.3 is answered with the text "None" in the place of
    both readings. *)
Theorem empty_body_is_answered_with_None (w : World)
    (cities : list (string * (float * float)))
    (embedding_model : SentenceTransformer) (index : Index)
    (weather_data : dict) (index' : Index)
    (city : string) (lat lon : float) (response : Response) (body : dict)
    (prompt : string) (vector : list float)
    (best : ScoredVector) (rest : list ScoredVector) :
  NoDup (keys cities) →
  fetch_and_store_weather_data w cities embedding_model index
  = (Ok weather_data, index') →
  (city, (lat, lon)) ∈ cities →
  weather_response w lat lon = Ok response →
  status_code response = 200%Z →
  json response = Ok (PDict body) →
  dict_lookup body "current_weather" = None →
  encode embedding_model [prompt] !! 0%nat = Some vector →
  matches (query index' (tolist vector) 1 true) = best :: rest →
  match_id best = city →
  (match_score best <? 0.3)%float = false →
  query_weather w prompt embedding_model index'
  = Ok ("Today's weather in " +:+ city +:+ ":" +:+ newline
          +:+ "- Temperature: NoneÂ°C" +:+ newline
          +:+ "- Wind speed: None km/h").
Proof.
  intros Hnodup Hrun Hin Hresponse Hstatus Hjson Hbody Hvector Hmatches Hid Hscore.
  assert (get_current_weather w city lat lon = Ok (PDict (snapshot PNone PNone)))
    as Hfetch.
  { rewrite (fetch_200 w city lat lon response body []); try done.
    unfold nested_current_weather. by rewrite Hbody. }
  destruct (query_best_match _ _ _ _ _ Hmatches) as (values & metadata & Hrec & Hmetadata).
  destruct (fetch_and_store_success _ _ _ _ _ _ _ _ _ _ _ Hnodup Hrun Hin Hfetch)
    as (j & row & _ & _ & _ & Hindex & _).
  rewrite Hid, Hindex in Hrec. injection Hrec as <- <-.
  rewrite (query_weather_confident w _ _ _ _ _ _ _ Hvector Hmatches Hmetadata Hscore).
  by rewrite Hid.
Qed.

Lemma empty_body_is_answered_with_None_witness :
  query_weather (stub_world (PInt 15) (PInt 10)) "Temperature in Bilbao" stub_model
    (fetch_and_store_weather_data (stub_world (PInt 15) (PInt 10))
       [("Bilbao", (43.26, -2.93)%float)] stub_model (stub_index 0.9)).2
  = Ok ("Today's weather in " +:+ "Bilbao" +:+ ":" +:+ newline
          +:+ "- Temperature: NoneÂ°C" +:+ newline
          +:+ "- Wind speed: None km/h").
Proof.
  refine (empty_body_is_answered_with_None (stub_world (PInt 15) (PInt 10))
            [("Bilbao", (43.26, -2.93)%float)] stub_model (stub_index 0.9)
            [("Bilbao", PDict (snapshot PNone PNone))] _
            "Bilbao" 43.26%float (-2.93)%float _ [] "Temperature in Bilbao"
            (stub_row "Temperature in Bilbao")
            {| match_id := "Bilbao"; match_score := 0.9;
               match_metadata := PDict (snapshot PNone PNone) |} []
            _ eq_refl _ eq_refl eq_refl eq_refl eq_refl eq_refl eq_refl eq_refl eq_refl).
  - by apply (bool_decide_unpack _).
  - by left.
Defined.

Lemma sort_by_score_length (l : list ScoredVector) :
  length (sort_by_score l) = length l.
Proof. apply Permutation_length, sort_by_score_perm. Qed.

(** A top-1 query on an index that holds a record returns a match. *)
Lemma query_nonempty (index : Index) (vector : list float) (include_metadata : bool) :
  vectors index ≠ ∅ →
  matches (query index vector 1 include_metadata) ≠ [].
Proof.
  intros Hne Hnil. unfold query in Hnil. simpl in Hnil.
  apply (f_equal length) in Hnil.
  rewrite length_take, sort_by_score_length, length_map in Hnil.
  destruct (map_to_list (vectors index)) as [|rec l] eqn:Hlist.
  - by apply map_to_list_empty_iff in Hlist.
  - simpl in Hnil. lia.
Qed.

Lemma low_confidence_is_not_not_found (city_name : string) :
  low_confidence_message city_name ≠ not_found_message.
Proof. discriminate. Qed.

Lemma weather_is_not_not_found (city_name temperature wind_speed : string) :
  weather_message city_name temperature wind_speed ≠ not_found_message.
Proof. discriminate. Qed.

(** With a row for the prompt, [query_weather] returns one of its three
    texts. *)
Lemma query_weather_with_row (w : World) (prompt : string)
    (embedding_model : SentenceTransformer) (index : Index) (vector : list float) :
  encode embedding_model [prompt] !! 0%nat = Some vector →
  ∃ answer,
    query_weather w prompt embedding_model index = Ok answer ∧
    (answer = not_found_message ∨
     ∃ name values metadata,
       vectors index !! name = Some (values, metadata) ∧
       (answer = low_confidence_message name ∨
        answer = weather_message name
                   (py_str w (field metadata "temperature"))
                   (py_str w (field metadata "wind_speed")))).
Proof.
  intros Hvector.
  destruct (matches (query index (tolist vector) 1 true)) as [|best rest] eqn:Hmatches.
  { exists not_found_message. split; [|by left].
    by rewrite (query_weather_eq _ _ _ _ _ Hvector), Hmatches. }
  destruct (query_best_match _ _ _ _ _ Hmatches)
    as (values & metadata & Hrec & Hmetadata).
  destruct (match_score best <? 0.3)%float eqn:Hscore.
  - exists (low_confidence_message (match_id best)). split.
    + by apply (query_weather_unsure w _ _ _ vector best rest).
    + right. exists (match_id best), values, metadata. auto.
  - eexists. split.
    + by apply (query_weather_confident w _ _ _ vector best rest metadata).
    + right. exists (match_id best), values, metadata. auto.
Qed.

Lemma query_weather_on_empty (w : World) (prompt : string)
    (embedding_model : SentenceTransformer) (index : Index) (vector : list float) :
  encode embedding_model [prompt] !! 0%nat = Some vector →
  vectors index = ∅ →
  query_weather w prompt embedding_model index = Ok not_found_message.
Proof.
  intros Hvector Hempty.
  by rewrite (query_weather_eq _ _ _ _ _ Hvector), query_empty.
Qed.

(** X10: the texts [query_weather] can return are three.  Whatever it
    returns is the not-found sentence, or, for the id of a record that is
    in the index, the clarification request naming that id or the weather
    text built from that record's metadata; no other id is ever named.
    And when the embedding call returns no row for the prompt, the
    function raises [IndexError]. *)
Theorem query_weather_outcomes (w : World) (prompt : string)
    (embedding_model : SentenceTransformer) (index : Index) :
  (encode embedding_model [prompt] = [] →
   query_weather w prompt embedding_model index = Raise IndexError) ∧
  (∀ answer,
     query_weather w prompt embedding_model index = Ok answer →
     answer = not_found_message ∨
     ∃ name values metadata,
       vectors index !! name = Some (values, metadata) ∧
       (answer = low_confidence_message name ∨
        answer = weather_message name
                   (py_str w (field metadata "temperature"))
                   (py_str w (field metadata "wind_speed")))).
Proof.
  split.
  - intros Hrows. unfold query_weather, seq_getitem. by rewrite Hrows.
  - intros answer Hanswer.
    destruct (encode embedding_model [prompt]) as [|vector rows] eqn:Hrows.
    { unfold query_weather, seq_getitem in Hanswer. by rewrite Hrows in Hanswer. }
    destruct (query_weather_with_row w prompt embedding_model index vector)
      as (answer' & Hanswer' & Hkind); [by rewrite Hrows|].
    rewrite Hanswer in Hanswer'. by injection Hanswer' as <-.
Qed.

Lemma query_weather_outcomes_witness :
  query_weather (stub_world (PInt 15) (PInt 10)) "Madrid weather" mute_model stub_run.2
  = Raise IndexError ∧
  (weather_message "Madrid" "15" "10" = not_found_message ∨
   ∃ name values metadata,
     vectors (madrid_run 0.9).2 !! name = Some (values, metadata) ∧
     (weather_message "Madrid" "15" "10" = low_confidence_message name ∨
      weather_message "Madrid" "15" "10"
      = weather_message name
          (py_str (stub_world (PInt 15) (PInt 10)) (field metadata "temperature"))
          (py_str (stub_world (PInt 15) (PInt 10)) (field metadata "wind_speed")))).
Proof.
  split.
  - exact (proj1 (query_weather_outcomes (stub_world (PInt 15) (PInt 10))
                    "Madrid weather" mute_model stub_run.2) eq_refl).
  - exact (proj2 (query_weather_outcomes (stub_world (PInt 15) (PInt 10))
                    "Madrid weather" stub_model (madrid_run 0.9).2)
             (weather_message "Madrid" "15" "10") eq_refl).
Defined.

(** X11: the not-found sentence is the answer on an empty index and on no
    other.  As soon as the index holds one record, every prompt, however
    unrelated, gets a match and is answered with the clarification request
    or with a weather text. *)
Theorem not_found_iff_empty_index (w : World) (prompt : string)
    (embedding_model : SentenceTransformer) (index : Index) (vector : list float) :
  encode embedding_model [prompt] !! 0%nat = Some vector →
  (query_weather w prompt embedding_model index = Ok not_found_message ↔
   vectors index = ∅).
Proof.
  intros Hvector. rewrite (query_weather_eq _ _ _ _ _ Hvector). split.
  - intros Hanswer. destruct (decide (vectors index = ∅)) as [|Hne]; [done|].
    apply (query_nonempty _ (tolist vector) true) in Hne.
    destruct (matches (query index (tolist vector) 1 true)) as [|best rest] eqn:Hmatches;
      [done|].
    destruct (query_best_match _ _ _ _ _ Hmatches) as (values & metadata & _ & Hmetadata).
    rewrite Hmetadata in Hanswer. simpl in Hanswer.
    exfalso. destruct (match_score best <? 0.3)%float.
    + apply (low_confidence_is_not_not_found (match_id best)). congruence.
    + apply (weather_is_not_not_found (match_id best)
               (py_str w (default PNone (dict_lookup metadata "temperature")))
               (py_str w (default PNone (dict_lookup metadata "wind_speed")))).
      congruence.
  - intros Hempty. by rewrite query_empty.
Qed.

Lemma not_found_iff_empty_index_witness :
  query_weather (stub_world (PInt 15) (PInt 10)) "What about Barcelona?" stub_model
    (stub_index 0.9) = Ok not_found_message ∧
  query_weather (stub_world (PInt 15) (PInt 10)) "What about Barcelona?" stub_model
    stub_run.2 ≠ Ok not_found_message.
Proof.
  split.
  - apply (not_found_iff_empty_index (stub_world (PInt 15) (PInt 10))
             "What about Barcelona?" stub_model (stub_index 0.9)
             (stub_row "What about Barcelona?") eq_refl).
    reflexivity.
  - intros Hanswer.
    apply (not_found_iff_empty_index (stub_world (PInt 15) (PInt 10))
             "What about Barcelona?" stub_model stub_run.2
             (stub_row "What about Barcelona?") eq_refl) in Hanswer.
    apply (f_equal (fun m => m !! "Madrid")) in Hanswer. vm_compute in Hanswer.
    discriminate.
Defined.

(** ** The comparison with the threshold *)

Lemma SFcompare_antisym (x y : spec_float) (c : comparison) :
  SFcompare x y = Some c → SFcompare y x = Some (CompOpp c).
Proof.
  destruct x as [sx|sx| |sx mx ex], y as [sy|sy| |sy my ey]; simpl;
    try discriminate; intros [= <-];
    try (destruct sx); try (destruct sy); try reflexivity.
  - rewrite (Z.compare_antisym ex ey).
    destruct (ex ?= ey)%Z; simpl; try reflexivity.
    by rewrite (Pos.compare_cont_antisym mx my Eq).
  - rewrite (Z.compare_antisym ex ey).
    destruct (ex ?= ey)%Z; simpl; try reflexivity.
    by rewrite (Pos.compare_cont_antisym mx my Eq).
Qed.

(** On floats, [x <= y] excludes [y < x]. *)
Lemma float_leb_not_ltb (x y : float) :
  (x <=? y)%float = true → (y <? x)%float = false.
Proof.
  rewrite leb_spec, ltb_spec. unfold SFleb, SFltb.
  destruct (SFcompare (Prim2SF x) (Prim2SF y)) as [c|] eqn:Hcompare; [|done].
  rewrite (SFcompare_antisym _ _ _ Hcompare). by destruct c.
Qed.

(** X12: the confidence gate is strict.  A best match whose score is at
    least 0.3, the threshold itself included, is answered with the weather
    text of the matched record, never with the clarification request. *)
Theorem threshold_is_inclusive (w : World) (prompt : string)
    (embedding_model : SentenceTransformer) (index : Index) (vector : list float)
    (best : ScoredVector) (rest : list ScoredVector) :
  encode embedding_model [prompt] !! 0%nat = Some vector →
  matches (query index (tolist vector) 1 true) = best :: rest →
  (0.3 <=? match_score best)%float = true →
  ∃ values metadata,
    vectors index !! match_id best = Some (values, metadata) ∧
    query_weather w prompt embedding_model index
    = Ok (weather_message (match_id best)
            (py_str w (field metadata "temperature"))
            (py_str w (field metadata "wind_speed"))).
Proof.
  intros Hvector Hmatches Hscore%float_leb_not_ltb.
  destruct (query_best_match _ _ _ _ _ Hmatches) as (values & metadata & Hrec & Hmetadata).
  exists values, metadata. split; [done|].
  by apply (query_weather_confident w _ _ _ vector best rest metadata).
Qed.

Lemma threshold_is_inclusive_witness :
  query_weather (stub_world (PInt 15) (PInt 10)) "Madrid weather" stub_model
    (madrid_run 0.3).2
  = Ok (weather_message "Madrid" "15" "10").
Proof.
  destruct (threshold_is_inclusive (stub_world (PInt 15) (PInt 10)) "Madrid weather"
              stub_model (madrid_run 0.3).2 (stub_row "Madrid weather")
              (madrid_match 0.3) [] eq_refl eq_refl eq_refl)
    as (values & metadata & Hrec & Hanswer).
  vm_compute in Hrec. injection Hrec as <- <-. exact Hanswer.
Defined.

(** ** [run_test_queries] *)

(** With a model that returns a row for each query, the loop does not
    raise and prints one block of three texts per query, in order. *)
Lemma query_loop_output (w : World) (embedding_model : SentenceTransformer)
    (index : Index) (queries : list string) : ∀ stdout,
  (∀ query, query ∈ queries → encode embedding_model [query] ≠ []) →
  ∃ answers,
    Forall2 (fun query answer =>
               query_weather w query embedding_model index = Ok answer)
            queries answers ∧
    query_loop w queries embedding_model index stdout
    = (Ok tt, stdout ++ concat (zip_with query_block queries answers)).
Proof.
  induction queries as [|query rest IH]; intros stdout Hrows.
  { exists []. split; [constructor|]. simpl. by rewrite app_nil_r. }
  destruct (encode embedding_model [query]) as [|vector rows] eqn:Hencode.
  { destruct (Hrows query); [by left|done]. }
  destruct (query_weather_with_row w query embedding_model index vector)
    as (answer & Hanswer & _); [by rewrite Hencode|].
  destruct (IH (print (string_mul "-" 50)
                  (print answer (print ("Query: '" +:+ query +:+ "'") stdout))))
    as (answers & Hanswers & Hloop); [intros q Hq; apply Hrows; by right|].
  exists (answer :: answers). split; [by constructor|].
  cbn [query_loop]. rewrite Hanswer, Hloop. unfold print, query_block.
  cbn [zip_with concat]. by rewrite <- !app_assoc.
Qed.

(** X13: with a model that returns a row for each of the five test
    queries, [run_test_queries] raises nothing and adds seventeen texts to
    the output: the heading and a rule of fifty [=], then for each query,
    in order, the line that quotes it, the answer of [query_weather] and a
    rule of fifty [-].  On an index without records every answer is the
    not-found sentence. *)
Theorem run_test_queries_output (w : World)
    (embedding_model : SentenceTransformer) (index : Index)
    (stdout : list string) :
  (∀ query, query ∈ test_queries → encode embedding_model [query] ≠ []) →
  ∃ answers stdout',
    run_test_queries w embedding_model index stdout = (Ok tt, stdout') ∧
    Forall2 (fun query answer =>
               query_weather w query embedding_model index = Ok answer)
            test_queries answers ∧
    stdout' = stdout
              ++ [newline +:+ "Running test queries:"; string_mul "=" 50]
              ++ concat (zip_with query_block test_queries answers) ∧
    length stdout' = (length stdout + 17)%nat ∧
    (vectors index = ∅ → answers = replicate 5 not_found_message).
Proof.
  intros Hrows. unfold run_test_queries. cbv zeta.
  destruct (query_loop_output w embedding_model index test_queries
              (print (string_mul "=" 50)
                 (print (newline +:+ "Running test queries:") stdout)) Hrows)
    as (answers & Hanswers & Hloop).
  exists answers. eexists. split; [exact Hloop|]. split; [done|].
  assert (length answers = 5%nat) as Hlength
    by (by rewrite <- (Forall2_length _ _ _ Hanswers)).
  split_and!.
  - unfold print. by rewrite <- !app_assoc.
  - destruct answers as [|a1 [|a2 [|a3 [|a4 [|a5 [|]]]]]]; try discriminate.
    unfold print. rewrite !length_app. simpl. lia.
  - intros Hempty.
    assert (Forall (fun answer => answer = not_found_message) answers) as Hall.
    { apply Forall_forall. intros answer Hin.
      apply list_elem_of_lookup_1 in Hin as [i Hi].
      destruct (Forall2_lookup_r _ _ _ _ _ Hanswers Hi) as (query & Hquery & Hanswer).
      destruct (encode embedding_model [query]) as [|vector rows] eqn:Hencode.
      { destruct (Hrows query); [by eapply list_elem_of_lookup_2|done]. }
      assert (encode embedding_model [query] !! 0%nat = Some vector) as Hvector
        by (by rewrite Hencode).
      pose proof (query_weather_on_empty w query embedding_model index
                    vector Hvector Hempty) as Hnone.
      congruence. }
    destruct answers as [|a1 [|a2 [|a3 [|a4 [|a5 [|]]]]]]; try discriminate.
    by repeat (apply Forall_cons in Hall as [-> Hall]).
Qed.

Lemma run_test_queries_output_witness :
  ∃ stdout',
    run_test_queries (stub_world (PInt 15) (PInt 10)) stub_model (stub_index 0.9) []
    = (Ok tt, stdout') ∧
    length stdout' = 17%nat.
Proof.
  destruct (run_test_queries_output (stub_world (PInt 15) (PInt 10)) stub_model
              (stub_index 0.9) [])
    as (answers & stdout' & Hrun & _ & _ & Hlength & _).
  { intros query _. simpl. discriminate. }
  exists stdout'. by split.
Defined.

(** ** [initialize_components] and [main] *)

Section Initialize.
Context (w : World) (h : Host) (name : string) (p : Process).

(** What [initialize_components] does when no call is refused, by whether
    the name is taken. *)
Lemma initialize_components_existing (embedding_model : SentenceTransformer)
    (description : IndexDescription) (index : Index) :
  load_model h "all-MiniLM-L6-v2" = Ok embedding_model →
  new_client h (environ w !! "PINECONE_API_KEY") = Ok tt →
  refusal h "has_index" = None →
  refusal h "Index" = None →
  proc_indexes p !! name = Some (description, index) →
  initialize_components w h name p
  = (Ok (embedding_model, index),
     proc_print ("Index '" +:+ name +:+ "' already exists. Using existing index.") p).
Proof.
  intros Hmodel Hclient Hhas Hopen Hindex.
  unfold initialize_components, has_index, open_index.
  rewrite Hmodel, Hclient, Hhas.
  rewrite bool_decide_eq_true_2 by (by rewrite Hindex).
  simpl. by rewrite Hopen, Hindex.
Qed.

Lemma initialize_components_absent (embedding_model : SentenceTransformer) :
  load_model h "all-MiniLM-L6-v2" = Ok embedding_model →
  new_client h (environ w !! "PINECONE_API_KEY") = Ok tt →
  refusal h "has_index" = None →
  refusal h "create_index" = None →
  refusal h "Index" = None →
  proc_indexes p !! name = None →
  ∃ p',
    initialize_components w h name p
    = (Ok (embedding_model,
           {| metric := similarity h "cosine"; vectors := ∅; upserts := [] |}),
       p') ∧
    proc_indexes p'
    = <[name := ({| dimension := 384; metric_name := "cosine";
                    spec := {| cloud := "aws"; region := "us-east-1" |} |},
                 {| metric := similarity h "cosine"; vectors := ∅; upserts := [] |})]>
        (proc_indexes p) ∧
    proc_slept p' = (proc_slept p + 30)%Z.
Proof.
  intros Hmodel Hclient Hhas Hcreate Hopen Hindex.
  unfold initialize_components, has_index, create_index, open_index.
  rewrite Hmodel, Hclient, Hhas.
  rewrite bool_decide_eq_false_2 by (rewrite Hindex; by intros [? ?]).
  simpl. rewrite Hcreate, Hindex. simpl. rewrite Hopen, lookup_insert_eq.
  by eexists.
Qed.

(** Whatever the outcome: no other entry of the account is changed, and an
    index that exists under the name is neither changed nor waited for.
    When the function returns, each call it made was answered, and the
    index it returns is the one the account has under the name: the one
    that was there, or a new one without records. *)
Lemma initialize_components_inv (outcome : result (SentenceTransformer * Index))
    (p' : Process) :
  initialize_components w h name p = (outcome, p') →
  (∀ other, other ≠ name → proc_indexes p' !! other = proc_indexes p !! other) ∧
  (∀ entry, proc_indexes p !! name = Some entry →
     proc_indexes p' = proc_indexes p ∧ proc_slept p' = proc_slept p) ∧
  (∀ embedding_model index,
     outcome = Ok (embedding_model, index) →
     load_model h "all-MiniLM-L6-v2" = Ok embedding_model ∧
     new_client h (environ w !! "PINECONE_API_KEY") = Ok tt ∧
     refusal h "has_index" = None ∧
     refusal h "Index" = None ∧
     ∃ description,
       proc_indexes p' !! name = Some (description, index) ∧
       (∀ entry, proc_indexes p !! name = Some entry → entry = (description, index)) ∧
       (proc_indexes p !! name = None →
          description = {| dimension := 384; metric_name := "cosine";
                           spec := {| cloud := "aws"; region := "us-east-1" |} |} ∧
          index = {| metric := similarity h "cosine"; vectors := ∅; upserts := [] |} ∧
          proc_slept p' = (proc_slept p + 30)%Z)).
Proof.
  unfold initialize_components, has_index, create_index, open_index.
  destruct (load_model h "all-MiniLM-L6-v2") as [model|e]; [|by intros [= <- <-]].
  destruct (new_client h (environ w !! "PINECONE_API_KEY")) as [[]|e];
    [|by intros [= <- <-]].
  destruct (refusal h "has_index") as [e|]; [by intros [= <- <-]|].
  destruct (proc_indexes p !! name) as [[description existing]|] eqn:Hindex.
  - rewrite bool_decide_eq_true_2 by done. simpl.
    destruct (refusal h "Index") as [e|]; [by intros [= <- <-]|].
    rewrite Hindex. intros [= <- <-]. simpl. split_and!; try done.
    intros embedding_model index [= <- <-]. split_and!; try done.
    exists description. split_and!; try done. by intros entry [= <-].
  - rewrite bool_decide_eq_false_2 by (by intros [? ?]). simpl.
    destruct (refusal h "create_index") as [e|]; [by intros [= <- <-]|].
    rewrite Hindex. simpl.
    destruct (refusal h "Index") as [e|]; [intros [= <- <-]; simpl|].
    { split_and!; try done.
      intros other Hne. by rewrite lookup_insert_ne. }
    rewrite lookup_insert_eq. intros [= <- <-]. simpl. split_and!; try done.
    + intros other Hne. by rewrite lookup_insert_ne.
    + intros embedding_model index [= <- <-]. split_and!; try done.
      eexists. split_and!; try done. by rewrite lookup_insert_eq.
Qed.
End Initialize.

(** X14: [initialize_components] never touches an index that exists.
    Whatever its outcome, the indexes of the other names are as before,
    and an index that exists under the given name keeps its records and
    description and is not waited for.  When the function returns, it
    returns that index, or, when the name was free, an index without
    records created under it with dimension 384 and the cosine metric,
    after a wait of thirty seconds.  And it does return whenever the model
    loads, the client is built with the key of the environment and the
    service refuses none of the three calls for a reason of its own: the
    test on [has_index] keeps it clear of the refusal of a taken name and
    of a missing index. *)
Theorem initialize_components_keeps_indexes (w : World) (h : Host) (name : string)
    (p : Process) :
  (∀ outcome p',
     initialize_components w h name p = (outcome, p') →
     (∀ other, other ≠ name → proc_indexes p' !! other = proc_indexes p !! other) ∧
     (∀ entry, proc_indexes p !! name = Some entry →
        proc_indexes p' = proc_indexes p ∧ proc_slept p' = proc_slept p) ∧
     (∀ embedding_model index,
        outcome = Ok (embedding_model, index) →
        load_model h "all-MiniLM-L6-v2" = Ok embedding_model ∧
        match proc_indexes p !! name with
        | Some (description, existing) => index = existing
        | None =>
            vectors index = ∅ ∧
            metric index = similarity h "cosine" ∧
            proc_indexes p' !! name
            = Some ({| dimension := 384; metric_name := "cosine";
                       spec := {| cloud := "aws"; region := "us-east-1" |} |}, index) ∧
            proc_slept p' = (proc_slept p + 30)%Z
        end)) ∧
  (∀ embedding_model,
     load_model h "all-MiniLM-L6-v2" = Ok embedding_model →
     new_client h (environ w !! "PINECONE_API_KEY") = Ok tt →
     refusal h "has_index" = None →
     refusal h "create_index" = None →
     refusal h "Index" = None →
     ∃ index p',
       initialize_components w h name p = (Ok (embedding_model, index), p')).
Proof.
  split.
  - intros outcome p' (Hothers & Hkept & Hreturned)%initialize_components_inv.
    split_and!; [done..|].
    intros embedding_model index Houtcome.
    destruct (Hreturned _ _ Houtcome)
      as (Hmodel & _ & _ & _ & description & Hindex & Hsame & Hnew).
    split; [done|].
    destruct (proc_indexes p !! name) as [[d existing]|].
    + by pose proof (Hsame _ eq_refl) as [= -> ->].
    + destruct (Hnew eq_refl) as (-> & -> & Hslept). by split_and!.
  - intros embedding_model Hmodel Hclient Hhas Hcreate Hopen.
    destruct (proc_indexes p !! name) as [[description existing]|] eqn:Hindex.
    + eexists _, _. by eapply initialize_components_existing.
    + destruct (initialize_components_absent w h name p embedding_model)
        as (p' & Hrun & _); try done. by eexists _, _.
Qed.

Lemma initialize_components_keeps_indexes_witness :
  ∃ index p',
    initialize_components (with_api_key (stub_world (PInt 15) (PInt 10))) stub_host
      default_index_name seeded_process = (Ok (stub_model, index), p').
Proof.
  exact (proj2 (initialize_components_keeps_indexes
                  (with_api_key (stub_world (PInt 15) (PInt 10))) stub_host
                  default_index_name seeded_process)
           stub_model eq_refl eq_refl eq_refl eq_refl eq_refl).
Defined.

(** The loop over the queries returns only if the model gave a row for
    each of them. *)
Lemma query_loop_rows (w : World) (embedding_model : SentenceTransformer)
    (index : Index) (queries : list string) : ∀ stdout stdout',
  query_loop w queries embedding_model index stdout = (Ok tt, stdout') →
  ∀ query, query ∈ queries → encode embedding_model [query] ≠ [].
Proof.
  induction queries as [|q rest IH]; intros stdout stdout' Hloop query Hin.
  { by apply elem_of_nil in Hin. }
  cbn [query_loop] in Hloop.
  destruct (query_weather w q embedding_model index) as [answer|e] eqn:Hanswer;
    [|done].
  apply elem_of_cons in Hin as [->|Hin]; [|by eapply IH].
  intros Hnone. unfold query_weather, seq_getitem in Hanswer.
  by rewrite Hnone in Hanswer.
Qed.

(** X15: running the program a second time, in a world that answers as
    before, changes no record.  When [main] returned, [main] run again from
    the state it left returns too; it finds its index, creates nothing and
    does not wait; and the index holds the same records, by id, vector and
    metadata, as after the first run.  The indexes of other names are not
    touched. *)
Theorem main_rerun_keeps_records (w : World) (h : Host) (p p1 : Process) :
  main w h p = (Ok tt, p1) →
  ∃ p2 description index1 index2,
    main w h p1 = (Ok tt, p2) ∧
    proc_indexes p1 !! default_index_name = Some (description, index1) ∧
    proc_indexes p2 !! default_index_name = Some (description, index2) ∧
    vectors index2 = vectors index1 ∧
    (∀ name, name ≠ default_index_name →
       proc_indexes p2 !! name = proc_indexes p1 !! name) ∧
    proc_slept p2 = proc_slept p1.
Proof.
  unfold main. cbv zeta.
  destruct (initialize_components w h default_index_name p)
    as [[[embedding_model index0]|e] pa] eqn:Hinit; [|done].
  destruct (initialize_components_inv _ _ _ _ _ _ Hinit) as (_ & _ & Hreturned).
  destruct (Hreturned _ _ eq_refl)
    as (Hmodel & Hclient & Hhas & Hopen & description & Hpa & _).
  destruct (fetch_and_store_weather_data w main_cities embedding_model index0)
    as [[weather_data|e] index1] eqn:Hfetch; [|done].
  destruct (run_test_queries w embedding_model index1 _) as [outcome out] eqn:Hqueries.
  intros [= -> <-]. simpl.
  rewrite (initialize_components_existing w h default_index_name _ embedding_model
             description index1 Hmodel Hclient Hhas Hopen)
    by (simpl; by rewrite lookup_alter_eq, Hpa).
  unfold fetch_and_store_weather_data in *. cbv zeta in *.
  destruct (ingest_loop_again _ _ _ _ _ _ _ _ Hfetch) as (index2 & Hfetch2 & Hvectors & _).
  rewrite Hfetch2.
  unfold run_test_queries in Hqueries. cbv zeta in Hqueries.
  pose proof (query_loop_rows _ _ _ _ _ _ Hqueries) as Hrows.
  unfold run_test_queries. cbv zeta.
  match goal with
  | |- context [query_loop w test_queries ?m index2 ?s] =>
      destruct (query_loop_output w m index2 test_queries s Hrows)
        as (answers & _ & ->)
  end.
  eexists _, description, index1, index2. split; [reflexivity|].
  split_and!; try done; simpl; try (by rewrite !lookup_alter_eq, Hpa).
  intros name Hne. by rewrite lookup_alter_ne.
Qed.

Lemma main_rerun_keeps_records_witness :
  ∃ p2 description index1 index2,
    main (with_api_key (stub_world (PInt 15) (PInt 10))) stub_host
      (main (with_api_key (stub_world (PInt 15) (PInt 10))) stub_host seeded_process).2
    = (Ok tt, p2) ∧
    proc_indexes
      (main (with_api_key (stub_world (PInt 15) (PInt 10))) stub_host seeded_process).2
      !! default_index_name = Some (description, index1) ∧
    proc_indexes p2 !! default_index_name = Some (description, index2) ∧
    vectors index2 = vectors index1 ∧
    (∀ name, name ≠ default_index_name →
       proc_indexes p2 !! name
       = proc_indexes
           (main (with_api_key (stub_world (PInt 15) (PInt 10))) stub_host
              seeded_process).2 !! name) ∧
    proc_slept p2 = 0%Z.
Proof.
  exact (main_rerun_keeps_records (with_api_key (stub_world (PInt 15) (PInt 10)))
           stub_host seeded_process _ eq_refl).
Defined.

(** X16: [main] works on one index and only adds to it.  Whatever its
    outcome, the indexes of other names are as before; and when the index
    named city-weather-data existed, it keeps its description, every id it
    stored is still stored, and the record of every id other than the
    three city names is unchanged. *)
Theorem main_only_touches_its_index (w : World) (h : Host) (p : Process)
    (outcome : result unit) (p' : Process) :
  main w h p = (outcome, p') →
  (∀ name, name ≠ default_index_name →
     proc_indexes p' !! name = proc_indexes p !! name) ∧
  (∀ description index0,
     proc_indexes p !! default_index_name = Some (description, index0) →
     ∃ index',
       proc_indexes p' !! default_index_name = Some (description, index') ∧
       (∀ name, is_Some (vectors index0 !! name) → is_Some (vectors index' !! name)) ∧
       (∀ name, name ∉ ["Madrid"; "Barcelona"; "Bilbao"] →
          vectors index' !! name = vectors index0 !! name)).
Proof.
  unfold main. cbv zeta.
  destruct (initialize_components w h default_index_name p)
    as [initialized pa] eqn:Hinit.
  destruct (initialize_components_inv _ _ _ _ _ _ Hinit)
    as (Hothers & Hkept & Hreturned).
  destruct initialized as [[embedding_model index0]|e].
  2:{ intros [= _ <-]. split; [done|].
      intros description index00 Hp. destruct (Hkept _ Hp) as [-> _].
      exists index00. by split_and!. }
  destruct (Hreturned _ _ eq_refl) as (_ & _ & _ & _ & description & Hpa & Hsame & _).
  destruct (fetch_and_store_weather_data w main_cities embedding_model index0)
    as [fetched_data index1] eqn:Hfetch.
  unfold fetch_and_store_weather_data in Hfetch. cbv zeta in Hfetch.
  destruct (ingest_loop_only_adds _ _ _ _ _ _ _ _ Hfetch) as (_ & Hadded & Hframe).
  assert (∀ q : Process,
    proc_indexes q = proc_indexes (write_index default_index_name index1 pa) →
    (∀ name, name ≠ default_index_name →
       proc_indexes q !! name = proc_indexes p !! name) ∧
    (∀ description0 index00,
       proc_indexes p !! default_index_name = Some (description0, index00) →
       ∃ index',
         proc_indexes q !! default_index_name = Some (description0, index') ∧
         (∀ name, is_Some (vectors index00 !! name) → is_Some (vectors index' !! name)) ∧
         (∀ name, name ∉ ["Madrid"; "Barcelona"; "Bilbao"] →
            vectors index' !! name = vectors index00 !! name))) as Hstate.
  { intros q ->. simpl. split.
    - intros name Hne. rewrite lookup_alter_ne by done. by apply Hothers.
    - intros description0 index00 [= -> ->]%Hsame. exists index1.
      rewrite lookup_alter_eq, Hpa. by split_and!. }
  destruct fetched_data as [weather_data|e].
  - destruct (run_test_queries w _ index1 _) as [result out].
    intros [= _ <-]. by apply Hstate.
  - intros [= _ <-]. by apply Hstate.
Qed.

Lemma main_only_touches_its_index_witness :
  proc_indexes
    (main (with_api_key (stub_world (PInt 15) (PInt 10))) stub_host seeded_process).2
    !! "another-index" = proc_indexes seeded_process !! "another-index" ∧
  ∃ index',
    proc_indexes
      (main (with_api_key (stub_world (PInt 15) (PInt 10))) stub_host seeded_process).2
      !! default_index_name
    = Some ({| dimension := 384; metric_name := "cosine";
               spec := {| cloud := "aws"; region := "us-east-1" |} |}, index') ∧
    vectors index' !! "Sevilla" = Some ([1%float], snapshot (PInt 30) (PInt 5)).
Proof.
  destruct (main_only_touches_its_index (with_api_key (stub_world (PInt 15) (PInt 10)))
              stub_host seeded_process _ _ eq_refl) as [Hothers Hown].
  split.
  - apply Hothers. apply (bool_decide_unpack _). reflexivity.
  - destruct (Hown _ _ eq_refl) as (index' & Hindex & _ & Hframe).
    exists index'. split; [exact Hindex|].
    rewrite (Hframe "Sevilla"); [reflexivity|].
    apply (bool_decide_unpack _). reflexivity.
Defined.
